(** * SeedMart backend: market service, pricing engine and HTTP routes

    A shallow embedding of [services/market.py], [routes/api.py] and
    [routes/auth.py].

    Conventions of the embedding.
    - Prices are Python [Decimal]/[float] values.  The services and routes
      are modelled over rationals ([Q]) with exact arithmetic.  The pricing
      step [calculate_price_change] is modelled a second time over binary64
      floats ([Float64]), operation by operation, and what is said of the
      number it returns is said of that model.
    - The [price] column of the observations is [NUMERIC(10, 2) NOT NULL],
      as in the DDL of [create_test_price_data.py]: a price taken from a
      request is rounded to two places when its row is written, and a
      price that is [null], not a number or too large makes the commit
      fail.  The seed table keeps a price as it is sent, as a float column
      does ([create_test_price_data.py] multiplies the price it reads from
      that table by a float, which a [Decimal] would refuse).  The services
      of [market.py] store the price they hand over: they round what they
      compute, and the price of a seed, which [get_price_history] copies, is
      taken there to have at most two decimal places.
    - Timestamps ([datetime]) are integers counting microseconds.
    - The relational store is an in-memory record of tables kept in insertion
      order; it is always reachable, so the [except] branches of the source,
      which only catch driver and connection errors, have no counterpart.
    - [random] and [datetime.now] are read from an oracle: the k-th call
      returns the k-th value of a fixed but arbitrary sequence.
    - [models/models.py] is not part of the sources at hand: the records
      below follow the data model of the specification, and [to_dict] is a
      method left abstract. *)

From Stdlib Require Import String List ZArith QArith Qround Qabs Qpower Bool Lia Lqa.
From Stdlib Require Import Sorting.Sorted Sorting.Permutation.
Import ListNotations.

Local Open Scope Z_scope.

(* ------------------------------------------------------------------ *)
(** ** Python numerics *)

Module Py.

(** [round(x)] to the nearest integer, ties to the even neighbour. *)
Definition round_half_even (x : Q) : Z :=
  let f := Qfloor x in
  match Qcompare (x - inject_Z f) (1 # 2) with
  | Lt => f
  | Gt => f + 1
  | Eq => if Z.even f then f else f + 1
  end.

Definition pow10 (ndigits : nat) : Q := inject_Z (10 ^ Z.of_nat ndigits).

(** [round(x, ndigits)] *)
Definition round (x : Q) (ndigits : nat) : Q :=
  (inject_Z (round_half_even (x * pow10 ndigits)) / pow10 ndigits)%Q.

(** [max(a, b)]: the first argument unless the second is greater. *)
Definition max (a b : Q) : Q :=
  match Qcompare a b with
  | Lt => b
  | _ => a
  end.

(** [a > b] *)
Definition gt (a b : Q) : bool :=
  match Qcompare a b with
  | Gt => true
  | _ => false
  end.

(** Truth value of an optional number ([None] and zero are false). *)
Definition truthy (x : option Q) : bool :=
  match x with
  | None => false
  | Some q => negb (Qeq_bool q 0)
  end.

(** Truth value of an optional string ([None] and [''] are false). *)
Definition truthy_str (x : option string) : bool :=
  match x with
  | None | Some EmptyString => false
  | Some _ => true
  end.

(** [d.get(key, default)] on a literal dict. *)
Fixpoint dict_get {V : Type} (d : list (string * V)) (key : string) (default : V) : V :=
  match d with
  | [] => default
  | (k, v) :: d' => if String.eqb k key then v else dict_get d' key default
  end.

(** [timedelta(days=d)] in microseconds. *)
Definition timedelta_days (d : Z) : Z := d * 86400000000.

(** A number has at most [ndigits] decimal places. *)
Definition places (ndigits : nat) (x : Q) : Prop :=
  exists k : Z, (x == inject_Z k / pow10 ndigits)%Q.

End Py.

(* ------------------------------------------------------------------ *)
(** ** Python floats *)

(** A Python [float] is an IEEE 754 binary64 number.  A finite float is
    represented by the rational it denotes; an operation computes the exact
    result and rounds it to the nearest binary64 number, ties to the even
    mantissa, overflowing to an infinity.  The sign of zero is not
    represented. *)
Module Float64.

(** Bits of the mantissa, and the bounds of the exponent: the largest
    finite float is below [2 ^ emax], the smallest positive one is
    [2 ^ emin]. *)
Definition prec : Z := 53.
Definition emax : Z := 1024.
Definition emin : Z := -1074.

Definition pow2 (e : Z) : Q := ((2 # 1) ^ e)%Q.

(** The exponent of the binade of [x]: [2 ^ ilog2 x <= |x| < 2 ^ (ilog2 x + 1)]. *)
Definition ilog2 (x : Q) : Z :=
  let l := Z.log2 (Z.abs (Qnum x)) - Z.log2 (Zpos (Qden x)) in
  if Qle_bool (pow2 l) (Qabs x) then l else l - 1.

(** The exponent of the last bit of the mantissa of [x], subnormal numbers
    included. *)
Definition ulp_exponent (x : Q) : Z := Z.max (ilog2 x - (prec - 1)) emin.

(** The binary64 number nearest to [x], the exponent being unbounded
    above. *)
Definition nearest (x : Q) : Q :=
  (inject_Z (Py.round_half_even (x / pow2 (ulp_exponent x))) * pow2 (ulp_exponent x))%Q.

Inductive float : Type :=
| Finite (q : Q)
| Infinity (negative : bool)
| NaN.

Definition negative (q : Q) : bool := negb (Qle_bool 0 q).

(** The float that a number is rounded to: [float(x)] of a [Decimal] or an
    [int], and the value of a literal. *)
Definition of_Q (x : Q) : float :=
  let y := nearest x in
  if Qle_bool (pow2 emax) (Qabs y) then Infinity (negative x) else Finite y.

(** [a + b] *)
Definition add (a b : float) : float :=
  match a, b with
  | NaN, _ | _, NaN => NaN
  | Infinity s, Infinity s' => if Bool.eqb s s' then Infinity s else NaN
  | Infinity s, Finite _ | Finite _, Infinity s => Infinity s
  | Finite x, Finite y => of_Q (x + y)
  end.

(** [- a] *)
Definition opp (a : float) : float :=
  match a with
  | Finite x => Finite (- x)
  | Infinity s => Infinity (negb s)
  | NaN => NaN
  end.

(** [a - b] *)
Definition sub (a b : float) : float := add a (opp b).

(** [a * b] *)
Definition mul (a b : float) : float :=
  match a, b with
  | NaN, _ | _, NaN => NaN
  | Infinity s, Infinity s' => Infinity (xorb s s')
  | Infinity s, Finite y | Finite y, Infinity s =>
      if Qeq_bool y 0 then NaN else Infinity (xorb s (negative y))
  | Finite x, Finite y => of_Q (x * y)
  end.

(** [a > b] *)
Definition gt (a b : float) : bool :=
  match a, b with
  | NaN, _ | _, NaN => false
  | Finite x, Finite y => negb (Qle_bool x y)
  | Finite _, Infinity s => s
  | Infinity s, Finite _ => negb s
  | Infinity s, Infinity s' => negb s && s'
  end.

(** [max(a, b)]: the first argument unless the second is greater. *)
Definition max (a b : float) : float := if gt b a then b else a.

(** [round(x, ndigits)]: the exact value of [x] is rounded to [ndigits]
    decimal places, ties to the even digit, and the float nearest to that
    decimal number is returned; an infinity and a NaN are returned as they
    are. *)
Definition round (x : float) (ndigits : nat) : float :=
  match x with
  | Finite q => of_Q (Py.round q ndigits)
  | _ => x
  end.

(** A finite float within [2 ^ k] of zero. *)
Definition bounded (k : Z) (a : float) : Prop :=
  exists q : Q, a = Finite q /\ (Qabs q <= pow2 k)%Q.

End Float64.

(* ------------------------------------------------------------------ *)
(** ** Column types of the store *)

Module Pg.

(** Rounding to the nearest integer, ties away from zero, as PostgreSQL
    rounds a [numeric]. *)
Definition round_half_away (x : Q) : Z :=
  if Qle_bool 0 x then Qfloor (x + (1 # 2)) else - Qfloor (- x + (1 # 2)).

(** What a [NUMERIC(10, 2)] column stores for a number: the number rounded
    to two decimal places.  [None] stands for the error that the store
    raises when the rounded number has more than ten digits. *)
Definition numeric_10_2 (x : Q) : option Q :=
  let cents := round_half_away (x * 100) in
  if Z.abs cents <? 10 ^ 10 then Some (inject_Z cents / 100)%Q else None.

End Pg.

(* ------------------------------------------------------------------ *)
(** ** JSON values produced by [jsonify] *)

#[local] Set Warnings "-register-all".

Inductive json : Type :=
| JNull
| JBool (b : bool)
| JInt (n : Z)
| JNum (q : Q)
| JStr (s : string)
| JArr (items : list json)
| JObj (fields : list (string * json)).

(** A Flask response: the body and the HTTP status. *)
Record Response : Type := { body : json; status : Z }.

Definition jsonify (j : json) (code : Z) : Response := {| body := j; status := code |}.

(** The envelope [{"error": msg}]. *)
Definition error_envelope (msg : string) : json := JObj [("error"%string, JStr msg)].

(* ------------------------------------------------------------------ *)
(** ** Data model *)

(** Modelled from the spec: [models/models.py] is absent; the columns of
    [Seed] are those of section 3 (id, name, species, quantity, current
    price, description), with the nullability that [create_seed] relies on. *)
Record Seed : Type := {
  seed_id : Z;
  seed_name : string;
  seed_species : option string;
  seed_quantity : Z;
  seed_price : option Q;
  seed_description : option string
}.

(** Modelled from the spec: [models/models.py] is absent; a price observation
    has an id, a seed reference, a price (decimal), a volume (integer) and a
    recorded timestamp.  The id is [None] until the row is inserted. *)
Record SeedPrice : Type := {
  sp_id : option Z;
  sp_seed_id : Z;
  sp_price : Q;
  sp_volume : Z;
  sp_recorded_at : Z
}.

(** Modelled from the spec: [models/models.py] is absent; a user has an id,
    a username, an email, a password hash, name fields and a last-login
    timestamp. *)
Record User : Type := {
  user_id : option Z;
  user_username : string;
  user_email : string;
  user_password_hash : string;
  user_first_name : string;
  user_last_name : string;
  user_last_login : option Z
}.

(** Modelled from the spec: every model class of the absent
    [models/models.py] has a [to_dict] method used by the routes. *)
Class Model (A : Type) : Type := { to_dict : A -> json }.

(** The constructor call [SeedPrice(seed_id=, price=, volume=, recorded_at=)]. *)
Definition SeedPrice_new (sid : Z) (price : Q) (volume : Z) (recorded_at : Z) : SeedPrice :=
  {| sp_id := None; sp_seed_id := sid; sp_price := price;
     sp_volume := volume; sp_recorded_at := recorded_at |}.

(** The tables, each in insertion order, and the serial counters. *)
Record Db : Type := {
  seeds : list Seed;
  seed_prices : list SeedPrice;
  users : list User;
  seed_price_serial : Z;
  user_serial : Z
}.

(** The store together with the positions reached in the random and clock
    sequences. *)
Record World : Type := {
  db : Db;
  rng_pos : nat;
  clock_pos : nat
}.

(* ------------------------------------------------------------------ *)
(** ** Queries *)

Module Query.

(** [Seed.query.get(id)] *)
Definition get_seed (d : Db) (id : Z) : option Seed :=
  find (fun s => seed_id s =? id) (seeds d).

(** [.filter_by(seed_id=id)] *)
Definition filter_by_seed_id (id : Z) (rows : list SeedPrice) : list SeedPrice :=
  filter (fun p => sp_seed_id p =? id) rows.

(** [.filter(SeedPrice.seed_id == id, SeedPrice.recorded_at >= cutoff)] *)
Definition filter_history (id cutoff : Z) (rows : list SeedPrice) : list SeedPrice :=
  filter (fun p => (sp_seed_id p =? id) && (cutoff <=? sp_recorded_at p)) rows.

Fixpoint insert_by {A : Type} (key : A -> Z) (x : A) (l : list A) : list A :=
  match l with
  | [] => [x]
  | y :: l' => if key x <=? key y then x :: l else y :: insert_by key x l'
  end.

(** [.order_by(key)]: ascending; rows with equal keys keep the table's
    order (SQL leaves their order open). *)
Definition order_by {A : Type} (key : A -> Z) (rows : list A) : list A :=
  fold_right (insert_by key) [] rows.

(** [.order_by(key.desc())] *)
Definition order_by_desc {A : Type} (key : A -> Z) (rows : list A) : list A :=
  order_by (fun r => - key r) rows.

(** Ascending order of the keys. *)
Definition key_le {A : Type} (key : A -> Z) (a b : A) : Prop := key a <= key b.

(** [.first()] *)
Definition first {A : Type} (rows : list A) : option A := hd_error rows.

(** [.offset(n)] *)
Definition offset {A : Type} (n : nat) (rows : list A) : list A := skipn n rows.

(** [SeedPrice.query.filter_by(seed_id=id).order_by(SeedPrice.recorded_at.desc()).first()] *)
Definition latest_price (d : Db) (id : Z) : option SeedPrice :=
  first (order_by_desc sp_recorded_at (filter_by_seed_id id (seed_prices d))).

(** The same query with [.offset(1)] before [.first()]. *)
Definition previous_price (d : Db) (id : Z) : option SeedPrice :=
  first (offset 1 (order_by_desc sp_recorded_at (filter_by_seed_id id (seed_prices d)))).

(** [User.query.filter_by(username=u).first()] *)
Definition user_by_username (d : Db) (u : string) : option User :=
  find (fun x => String.eqb (user_username x) u) (users d).

(** [User.query.filter_by(email=e).first()] *)
Definition user_by_email (d : Db) (e : string) : option User :=
  find (fun x => String.eqb (user_email x) e) (users d).

End Query.

(* ------------------------------------------------------------------ *)
(** ** Effects: a state monad over [World] *)

Definition M (A : Type) : Type := World -> A * World.

Definition ret {A : Type} (a : A) : M A := fun w => (a, w).

Definition bind {A B : Type} (m : M A) (k : A -> M B) : M B :=
  fun w => let (a, w') := m w in k a w'.

Notation "x <- m ;; k" := (bind m (fun x => k))
  (at level 61, m at next level, right associativity).

(** Run a read-only query on the store. *)
Definition query {A : Type} (q : Db -> A) : M A := fun w => (q (db w), w).

(** Replace the store. *)
Definition write_db (f : Db -> Db) : M unit :=
  fun w => (tt, {| db := f (db w); rng_pos := rng_pos w; clock_pos := clock_pos w |}).

(** The Python [for x in l: ...] loop that builds a list. *)
Fixpoint for_each {A B : Type} (f : A -> M B) (l : list A) : M (list B) :=
  match l with
  | [] => ret []
  | x :: l' => y <- f x ;; ys <- for_each f l' ;; ret (y :: ys)
  end.

Definition with_id (id : Z) (p : SeedPrice) : SeedPrice :=
  {| sp_id := Some id; sp_seed_id := sp_seed_id p; sp_price := sp_price p;
     sp_volume := sp_volume p; sp_recorded_at := sp_recorded_at p |}.

(** The rows as inserted: the serial column is filled in, in order. *)
Fixpoint assign_ids (next : Z) (rows : list SeedPrice) : list SeedPrice :=
  match rows with
  | [] => []
  | r :: rs => with_id next r :: assign_ids (next + 1) rs
  end.

(** The rows are appended as they are handed over, with their ids. *)
Definition insert_prices (rows : list SeedPrice) (d : Db) : Db :=
  {| seeds := seeds d;
     seed_prices := seed_prices d ++ assign_ids (seed_price_serial d) rows;
     users := users d;
     seed_price_serial := seed_price_serial d + Z.of_nat (length rows);
     user_serial := user_serial d |}.

(** The row of a seed already in the table is overwritten by the session's
    copy. *)
Definition replace_seed (s : Seed) (d : Db) : Db :=
  {| seeds := map (fun x => if seed_id x =? seed_id s then s else x) (seeds d);
     seed_prices := seed_prices d;
     users := users d;
     seed_price_serial := seed_price_serial d;
     user_serial := user_serial d |}.

Definition user_with_id (id : Z) (u : User) : User :=
  {| user_id := Some id; user_username := user_username u; user_email := user_email u;
     user_password_hash := user_password_hash u; user_first_name := user_first_name u;
     user_last_name := user_last_name u; user_last_login := user_last_login u |}.

Definition insert_user (u : User) (d : Db) : Db :=
  {| seeds := seeds d;
     seed_prices := seed_prices d;
     users := users d ++ [user_with_id (user_serial d) u];
     seed_price_serial := seed_price_serial d;
     user_serial := user_serial d + 1 |}.

(** [db.session.add(p); db.session.commit()]: the object comes back with
    its id. *)
Definition add_and_commit_price (p : SeedPrice) : M SeedPrice :=
  id <- query seed_price_serial ;;
  _ <- write_db (insert_prices [p]) ;;
  ret (with_id id p).

(** [db.session.bulk_save_objects(rows); db.session.commit()] *)
Definition bulk_save_objects (rows : list SeedPrice) : M unit :=
  write_db (insert_prices rows).

(** [db.session.add(u); db.session.commit()] *)
Definition add_and_commit_user (u : User) : M User :=
  id <- query user_serial ;;
  _ <- write_db (insert_user u) ;;
  ret (user_with_id id u).

(* ------------------------------------------------------------------ *)
(** ** Request bodies and result records *)

(** The JSON body of [POST /api/auth/register]; a field is [None] when its
    key is missing. *)
Record RegisterData : Type := {
  data_username : option string;
  data_email : option string;
  data_password : option string;
  data_first_name : option string;
  data_last_name : option string
}.

(** What [request.json] makes of a request (Flask 2.1 and later): an
    HTTP error is raised when the request does not announce JSON or when
    its body does not parse; otherwise the parsed value is returned, which
    need not be an object. *)
Inductive RequestJson (A : Type) : Type :=
| NoJson
| BadJson
| JsonValue (truthy : bool)
| JsonObject (data : A).

Arguments NoJson {A}.
Arguments BadJson {A}.
Arguments JsonValue {A} truthy.
Arguments JsonObject {A} data.

(** A JSON object sent to [POST /api/seeds] or [PUT /api/seeds/<id>] whose
    values have the types of their columns: a field is [None] when its key
    is missing, and a present [price] is a number. *)
Record SeedData : Type := {
  data_name : option string;
  data_species : option (option string);
  data_quantity : option Z;
  data_price : option Q;
  data_description : option (option string)
}.

(** The value found under the [price] key of a JSON object: a number,
    [null], or a value that no numeric column takes (a string that is not
    a numeral, an array, an object).  A number is given by the decimal
    that the driver writes for it.  Booleans and numeral strings are left
    out. *)
Inductive JsonPrice : Type :=
| PriceNumber (q : Q)
| PriceNull
| PriceOther.

(** A JSON object sent to [PUT /api/seeds/<id>], the price as it comes. *)
Record SeedJson : Type := {
  json_name : option string;
  json_species : option (option string);
  json_quantity : option Z;
  json_price : option JsonPrice;
  json_description : option (option string)
}.

(** One entry of the [seeds] array of the market summary. *)
Record SeedSummary : Type := {
  sum_id : Z;
  sum_name : string;
  sum_species : option string;
  currentPrice : Q;
  previousPrice : Q;
  change : Q;
  changePercent : Q;
  volume : Z;
  sum_description : option string
}.

Record MarketStats : Type := {
  totalVolume : Z;
  marketCap : Q;
  seedCount : nat
}.

Record MarketSummary : Type := {
  summary_seeds : list SeedSummary;
  marketStats : MarketStats
}.

(** [werkzeug]'s answer to [get_or_404] on a missing row. *)
Definition abort_404 : Response := {| body := JNull; status := 404 |}.

(** [d.get(key, default)] on a request body. *)
Definition get_default {A : Type} (field : option A) (default : A) : A :=
  match field with
  | Some v => v
  | None => default
  end.

(** [werkzeug]'s answers to the HTTP errors of [request.json]. *)
Definition unsupported_media_type : Response := {| body := JNull; status := 415 |}.

Definition bad_request : Response := {| body := JNull; status := 400 |}.

(** [werkzeug]'s answer to an exception that no handler catches. *)
Definition internal_server_error : Response := {| body := JNull; status := 500 |}.

(** [data['price'] != seed.price], both being numbers or [None]. *)
Definition price_ne (new : Q) (old : option Q) : bool :=
  match old with
  | None => true
  | Some q => negb (Qeq_bool new q)
  end.

(** [data['price'] != seed.price] for any JSON value: a number is compared
    with the stored number, [null] is [None], and no other value equals a
    number or [None]. *)
Definition json_price_ne (new : JsonPrice) (old : option Q) : bool :=
  match new with
  | PriceNumber q => price_ne q old
  | PriceNull => match old with None => false | Some _ => true end
  | PriceOther => true
  end.

(** The value that a request carries under [price] is not the price stored
    for the seed. *)
Definition price_differs (new : JsonPrice) (old : option Q) : Prop :=
  match new, old with
  | PriceNumber q, Some stored => ~ (q == stored)%Q
  | PriceNull, None => False
  | _, _ => True
  end.

(** [stored] is [q] in two decimal places: the nearest number of cents,
    and at a tie the one away from zero. *)
Definition in_cents (q stored : Q) : Prop :=
  Py.places 2 stored
  /\ (Qabs (stored - q) <= 1 # 200)%Q
  /\ ((Qabs (stored - q) == 1 # 200)%Q -> (Qabs q < Qabs stored)%Q).

(** Rounded to two places, the number has at most ten digits. *)
Definition fits_numeric_10_2 (q : Q) : Prop := (Qabs q < 99999999995 # 1000)%Q.

(** Library functions that the routes call and whose code is not part of
    the repository: [datetime.strftime('%Y-%m-%d')], [werkzeug]'s
    [check_password_hash(pwhash, password)] behind [User.check_password],
    and the two JWT encoders, applied to the identity. *)
Record Library : Type := {
  strftime_date : Z -> string;
  check_password_hash : string -> string -> bool;
  create_access_token : option Z -> string;
  create_refresh_token : option Z -> string
}.

(* ------------------------------------------------------------------ *)
(** ** Sample data used to run the model *)

Module Sample.

Definition random_at (k : nat) : Q :=
  nth k [3 # 4; 1 # 4; 1 # 10; 9 # 10; 1 # 2; 1 # 3] (1 # 2).

Definition randbits_at (k : nat) : Z := Z.of_nat k * 7919 + 12345.

Definition now_at (k : nat) : Z := 1700000000000000 + Z.of_nat k * 1000.

Definition generate_password_hash (s : string) : string := ("pbkdf2:" ++ s)%string.

Definition Seed_json : Model Seed :=
  {| to_dict := fun s =>
       JObj [("id", JInt (seed_id s)); ("name", JStr (seed_name s));
             ("quantity", JInt (seed_quantity s))]%string |}.

Definition SeedPrice_json : Model SeedPrice :=
  {| to_dict := fun p =>
       JObj [("seed_id", JInt (sp_seed_id p)); ("price", JNum (sp_price p));
             ("volume", JInt (sp_volume p));
             ("recorded_at", JInt (sp_recorded_at p))]%string |}.

Definition User_json : Model User :=
  {| to_dict := fun u =>
       JObj [("username", JStr (user_username u));
             ("email", JStr (user_email u))]%string |}.

Definition tomato : Seed :=
  {| seed_id := 1; seed_name := "Tomato"; seed_species := None;
     seed_quantity := 100; seed_price := Some (5 # 2); seed_description := None |}.

(** A seed created with [price: 0]: [create_seed] records no first
    observation for it. *)
Definition clover : Seed :=
  {| seed_id := 2; seed_name := "Clover"; seed_species := None;
     seed_quantity := 10; seed_price := Some 0%Q; seed_description := None |}.

Definition alice : User :=
  {| user_id := Some 1; user_username := "alice"; user_email := "alice@example.org";
     user_password_hash := "pbkdf2:secret"; user_first_name := "Alice";
     user_last_name := ""; user_last_login := None |}.

Definition obs (id sid : Z) (price : Q) (vol at_ : Z) : SeedPrice :=
  {| sp_id := Some id; sp_seed_id := sid; sp_price := price;
     sp_volume := vol; sp_recorded_at := at_ |}.

(** Two seeds, no observation yet. *)
Definition db_fresh : Db :=
  {| seeds := [tomato; clover]; seed_prices := []; users := [alice];
     seed_price_serial := 1; user_serial := 2 |}.

(** Tomato has three observations (one of them older than a week before
    the first clock reading), clover has none. *)
Definition db_traded : Db :=
  {| seeds := [tomato; clover];
     seed_prices := [obs 1 1 (5 # 2) 100 1699999999000000;
                     obs 2 1 (26 # 10) 700 1699999999500000;
                     obs 3 1 (24 # 10) 900 1690000000000000];
     users := [alice];
     seed_price_serial := 4; user_serial := 2 |}.


Definition start (d : Db) : World := {| db := d; rng_pos := 0; clock_pos := 0 |}.

Definition duplicate_alice : RegisterData :=
  {| data_username := Some "alice"%string; data_email := Some "other@example.org"%string;
     data_password := Some "pw"%string; data_first_name := None; data_last_name := None |}.


(** Stand-ins for the date formatter, the [werkzeug] hash check and the
    JWT encoders. *)
Definition lib : Library :=
  {| strftime_date := fun t =>
       if t <? 1700000000000000 then "2023-11-14"%string else "2023-11-15"%string;
     check_password_hash := fun pwhash password =>
       String.eqb pwhash ("pbkdf2:" ++ password)%string;
     create_access_token := fun identity =>
       match identity with Some _ => "access-token"%string | None => "anonymous"%string end;
     create_refresh_token := fun identity =>
       match identity with Some _ => "refresh-token"%string | None => "anonymous"%string end |}.

(** The JSON body [{"name": "Basil", "quantity": 40, "price": price}]. *)
Definition basil (price : option Q) : SeedData :=
  {| data_name := Some "Basil"%string; data_species := None; data_quantity := Some 40;
     data_price := price; data_description := None |}.

Definition login_alice (password : string) : RegisterData :=
  {| data_username := Some "alice"%string; data_email := None;
     data_password := Some password; data_first_name := None; data_last_name := None |}.

Definition register_bob : RegisterData :=
  {| data_username := Some "bob"%string; data_email := Some "bob@example.org"%string;
     data_password := Some "hunter2"%string; data_first_name := Some "Bob"%string;
     data_last_name := None |}.

(** The JSON object [{"quantity": 120, "price": price}], the price being
    any JSON value. *)
Definition reprice_json (price : JsonPrice) : SeedJson :=
  {| json_name := None; json_species := None; json_quantity := Some 120;
     json_price := Some price; json_description := None |}.

(** The largest finite float. *)
Definition max_float : Q := inject_Z ((2 ^ 53 - 1) * 2 ^ 971).

(** Tomato has one observation, recorded before the first clock reading. *)
Definition db_listed : Db :=
  {| seeds := [tomato; clover];
     seed_prices := [obs 1 1 (5 # 2) 100 1699999999000000];
     users := [alice];
     seed_price_serial := 2; user_serial := 2 |}.

End Sample.

(* ------------------------------------------------------------------ *)
(** ** The services and routes *)

Section Service.

#[local] Set Default Proof Using "Type".

(** The value of the k-th call of [random.random()]. *)
Variable random_at : nat -> Q.
(** The raw integer behind the k-th call when it is a [random.randint]. *)
Variable randbits_at : nat -> Z.
(** The value of the k-th call of [datetime.now()]. *)
Variable now_at : nat -> Z.
(** [werkzeug]'s password hash, used by [User.set_password]. *)
Variable generate_password_hash : string -> string.

Context {Model_Seed : Model Seed}.
Context {Model_SeedPrice : Model SeedPrice}.
Context {Model_User : Model User}.

Definition next_rng (w : World) : World :=
  {| db := db w; rng_pos := S (rng_pos w); clock_pos := clock_pos w |}.

(** [random.random()] *)
Definition random : M Q := fun w => (random_at (rng_pos w), next_rng w).

(** [random.uniform(a, b)] *)
Definition uniform (a b : Q) : M Q :=
  u <- random ;; ret (a + (b - a) * u)%Q.

(** [random.randint(a, b)] *)
Definition randint (a b : Z) : M Z :=
  fun w => (a + randbits_at (rng_pos w) mod (b - a + 1), next_rng w).

(** [datetime.now()] *)
Definition datetime_now : M Z :=
  fun w => (now_at (clock_pos w),
            {| db := db w; rng_pos := rng_pos w; clock_pos := S (clock_pos w) |}).

(** *** Pricing engine *)

Definition calculate_base_price : M Q :=
  u <- uniform 1 6 ;; ret (Py.round u 2).

Definition default_volatility : Q := 2 # 100.

Definition calculate_price_change (current_price volatility : Q) : M Q :=
  r <- random ;;
  let trend := (if Py.gt r (1 # 2) then 1 else - (1))%Q in
  u <- random ;;
  let change := ((u - (1 # 2)) * volatility + trend * (2 # 100))%Q in
  let new_price := Py.max (2 # 10) (current_price + current_price * change)%Q in
  ret (Py.round new_price 2).

(** [calculate_price_change] once more, every operation being the one of
    Python's [float]: [current_price] and [volatility] are the numbers
    passed, [float(current_price)] is the conversion that the function
    makes of a [Decimal]. *)
Definition calculate_price_change_binary64 (current_price volatility : Q)
  : M Float64.float :=
  let current_price := Float64.of_Q current_price in
  let volatility := Float64.of_Q volatility in
  r <- random ;;
  let trend := if Float64.gt (Float64.of_Q r) (Float64.of_Q (1 # 2))
               then Float64.of_Q 1 else Float64.of_Q (- (1)) in
  u <- random ;;
  let change :=
    Float64.add
      (Float64.mul (Float64.sub (Float64.of_Q u) (Float64.of_Q (1 # 2))) volatility)
      (Float64.mul trend (Float64.of_Q (2 # 100))) in
  let new_price :=
    Float64.max (Float64.of_Q (2 # 10))
      (Float64.add current_price (Float64.mul current_price change)) in
  ret (Float64.round new_price 2).

(** *** Market summary *)

(** The body of the loop of [get_market_summary]; the accumulator is
    [(total_volume, market_cap, summaries)]. *)
Definition summary_step (d : Db) (acc : Z * Q * list SeedSummary) (seed : Seed)
  : Z * Q * list SeedSummary :=
  let '(total_volume, market_cap, summaries) := acc in
  let latest_price := Query.latest_price d (seed_id seed) in
  let previous_price := Query.previous_price d (seed_id seed) in
  match latest_price with
  | Some latest =>
      let current_price := sp_price latest in
      let previous_price_value :=
        match previous_price with
        | Some previous => sp_price previous
        | None => current_price
        end in
      let change := Py.round (current_price - previous_price_value) 2 in
      let change_percent :=
        if Py.gt previous_price_value 0
        then Py.round (change / previous_price_value * 100) 1
        else 0%Q in
      let daily_volume := sp_volume latest in
      (total_volume + daily_volume,
       (market_cap + current_price * 1000)%Q,
       summaries ++ [ {| sum_id := seed_id seed;
                         sum_name := seed_name seed;
                         sum_species := seed_species seed;
                         currentPrice := current_price;
                         previousPrice := previous_price_value;
                         change := change;
                         changePercent := change_percent;
                         volume := daily_volume;
                         sum_description := seed_description seed |} ])
  | None => acc
  end.

Definition get_market_summary : M MarketSummary :=
  d <- query (fun d => d) ;;
  let seeds := seeds d in
  let '(total_volume, market_cap, summaries) :=
    fold_left (summary_step d) seeds (0, 0%Q, []) in
  ret {| summary_seeds := summaries;
         marketStats := {| totalVolume := total_volume;
                           marketCap := market_cap;
                           seedCount := List.length seeds |} |}.

(** *** Price history *)

Definition timeframe_days : list (string * Z) :=
  [("1d", 1); ("1w", 7); ("1m", 30); ("3m", 90); ("1y", 365)]%string.

Definition default_timeframe : string := "1w".

(** [timeframe_days.get(timeframe, 7)] *)
Definition days_of (timeframe : string) : Z := Py.dict_get timeframe_days timeframe 7.

Definition get_price_history (seed_id : Z) (timeframe : string) : M (list json) :=
  let days := days_of timeframe in
  now <- datetime_now ;;
  let cutoff_date := now - Py.timedelta_days days in
  seed <- query (fun d => Query.get_seed d seed_id) ;;
  match seed with
  | None => ret []
  | Some seed =>
      prices <- query (fun d =>
        Query.order_by sp_recorded_at
          (Query.filter_history seed_id cutoff_date (seed_prices d))) ;;
      match prices with
      | _ :: _ => ret (map to_dict prices)
      | [] =>
          price <- (if Py.truthy (seed_price seed)
                    then ret (get_default (seed_price seed) 0%Q)
                    else calculate_base_price) ;;
          volume <- randint 500 1000 ;;
          recorded_at <- datetime_now ;;
          new_price <- add_and_commit_price
                         (SeedPrice_new seed_id price volume recorded_at) ;;
          ret [to_dict new_price]
      end
  end.

(** *** Scheduled update *)

(** The body of the loop of [update_seed_prices]. *)
Definition price_record (seed : Seed) : M SeedPrice :=
  latest_price <- query (fun d => Query.latest_price d (seed_id seed)) ;;
  new <- match latest_price with
         | Some latest =>
             new_price <- calculate_price_change (sp_price latest) default_volatility ;;
             new_volume <- randint 500 10500 ;;
             ret (new_price, new_volume)
         | None =>
             new_price <- calculate_base_price ;;
             new_volume <- randint 500 10500 ;;
             ret (new_price, new_volume)
         end ;;
  recorded_at <- datetime_now ;;
  ret (SeedPrice_new (seed_id seed) (fst new) (snd new) recorded_at).

Definition update_seed_prices : M nat :=
  seeds <- query seeds ;;
  updates <- for_each price_record seeds ;;
  _ <- bulk_save_objects updates ;;
  ret (List.length updates).

(** [n] ticks of the scheduled job, one after the other. *)
Fixpoint run_ticks (n : nat) : M unit :=
  match n with
  | O => ret tt
  | S n' => _ <- update_seed_prices ;; run_ticks n'
  end.

(** What one tick records for a seed, in the words of the spec: a row of
    that seed whose price is [calculate_price_change] of the latest
    observation when there is one and [calculate_base_price] otherwise,
    whose volume lies in [500, 10500] and whose timestamp is a reading of
    the clock made during the tick that starts in [w]. *)
Definition tick_row (w : World) (seed : Seed) (row : SeedPrice) : Prop :=
  sp_seed_id row = seed_id seed
  /\ 500 <= sp_volume row <= 10500
  /\ (exists k : nat, (clock_pos w <= k)%nat /\ sp_recorded_at row = now_at k)
  /\ match Query.latest_price (db w) (seed_id seed) with
     | Some latest =>
         exists wi : World,
           sp_price row = fst (calculate_price_change (sp_price latest) default_volatility wi)
     | None =>
         exists wi : World, sp_price row = fst (calculate_base_price wi)
     end.




(** The number of observations recorded for a seed. *)
Definition observations_of (d : Db) (id : Z) : nat :=
  List.length (Query.filter_by_seed_id id (seed_prices d)).

(** The seed has at least one row in the log of price observations. *)
Definition has_observation (d : Db) (seed : Seed) : bool :=
  existsb (fun p => sp_seed_id p =? seed_id seed) (seed_prices d).

(** The price that the summary compares the latest one with: that of the
    second most recent observation, or the latest price itself when there
    is no second observation. *)
Definition previous_value (d : Db) (id : Z) (latest : SeedPrice) : Q :=
  match Query.previous_price d id with
  | Some previous => sp_price previous
  | None => sp_price latest
  end.

(** The entry [e] of the summary describes [seed]. *)
Definition entry_for (d : Db) (seed : Seed) (e : SeedSummary) : Prop :=
  exists latest : SeedPrice,
    Query.latest_price d (seed_id seed) = Some latest
    /\ sum_id e = seed_id seed
    /\ currentPrice e = sp_price latest
    /\ previousPrice e = previous_value d (seed_id seed) latest
    /\ change e = Py.round (currentPrice e - previousPrice e) 2
    /\ changePercent e = (if Py.gt (previousPrice e) 0
                          then Py.round (change e / previousPrice e * 100) 1
                          else 0%Q)
    /\ volume e = sp_volume latest.

(** *** Routes of [routes/api.py] *)

(** [GET /seeds/<seed_id>/prices]; [args_timeframe] is the query argument. *)
Definition get_seed_prices (seed_id : Z) (args_timeframe : option string) : M Response :=
  let timeframe := get_default args_timeframe default_timeframe in
  price_history <- get_price_history seed_id timeframe ;;
  match price_history with
  | [] => ret (jsonify (JArr []) 200)
  | _ :: _ => ret (jsonify (JArr price_history) 200)
  end.



Definition set_price (seed : Seed) (p : Q) : Seed :=
  {| seed_id := seed_id seed;
     seed_name := seed_name seed;
     seed_species := seed_species seed;
     seed_quantity := seed_quantity seed;
     seed_price := Some p;
     seed_description := seed_description seed |}.



Definition assign_basic_fields (seed : Seed) (data : SeedJson) : Seed :=
  {| seed_id := seed_id seed;
     seed_name := get_default (json_name data) (seed_name seed);
     seed_species := get_default (json_species data) (seed_species seed);
     seed_quantity := get_default (json_quantity data) (seed_quantity seed);
     seed_price := seed_price seed;
     seed_description := seed_description seed |}.

Definition assign_description (seed : Seed) (data : SeedJson) : Seed :=
  {| seed_id := seed_id seed;
     seed_name := seed_name seed;
     seed_species := seed_species seed;
     seed_quantity := seed_quantity seed;
     seed_price := seed_price seed;
     seed_description := get_default (json_description data) (seed_description seed) |}.

(** [PUT /seeds/<id>] from the request on.  The seed is looked up first;
    [request.json] may then raise its HTTP error, and [data.get] raises
    [AttributeError] on a JSON value that is not an object.  The price
    assigned to the seed and given to the new observation is the JSON
    value as it comes: the single [commit] at the end writes the seed and
    the observation, rounding the price of the observation to the two
    places of its column, or it fails, and then writes nothing, when that
    price is [null], not a number, or too large for the column. *)
Definition update_seed_request (id : Z) (request : RequestJson SeedJson) : M Response :=
  found <- query (fun d => Query.get_seed d id) ;;
  match found with
  | None => ret abort_404
  | Some seed =>
      match request with
      | NoJson => ret unsupported_media_type
      | BadJson => ret bad_request
      | JsonValue _ => ret internal_server_error
      | JsonObject data =>
          let seed := assign_basic_fields seed data in
          session <- match json_price data with
                     | Some price =>
                         if json_price_ne price (seed_price seed) then
                           recorded_at <- datetime_now ;;
                           ret (Some (price, recorded_at))
                         else ret None
                     | None => ret None
                     end ;;
          let seed := assign_description seed data in
          match session with
          | None =>
              _ <- write_db (replace_seed seed) ;;
              ret (jsonify (to_dict seed) 200)
          | Some (PriceNumber q, recorded_at) =>
              match Pg.numeric_10_2 q with
              | Some price =>
                  let seed := set_price seed q in
                  _ <- write_db (fun d =>
                         insert_prices
                           [SeedPrice_new (seed_id seed) price (seed_quantity seed) recorded_at]
                           (replace_seed seed d)) ;;
                  ret (jsonify (to_dict seed) 200)
              | None => ret internal_server_error
              end
          | Some (_, _) => ret internal_server_error
          end
      end
  end.

(** The name, species, quantity and description that a request gives are
    those of the seed afterwards, and the others are as before. *)
Definition fields_written (data : SeedJson) (seed updated : Seed) : Prop :=
  seed_id updated = seed_id seed
  /\ match json_name data with
     | Some name => seed_name updated = name
     | None => seed_name updated = seed_name seed
     end
  /\ match json_species data with
     | Some species => seed_species updated = species
     | None => seed_species updated = seed_species seed
     end
  /\ match json_quantity data with
     | Some quantity => seed_quantity updated = quantity
     | None => seed_quantity updated = seed_quantity seed
     end
  /\ match json_description data with
     | Some description => seed_description updated = description
     | None => seed_description updated = seed_description seed
     end.

(** *** Routes of [routes/auth.py] *)

(** [POST /register] once [request.json] has returned; [data] is [None]
    when the value returned is one that Python takes for false and that is
    not an object: [null], [false], [0], the empty string or array. *)
Definition register (data : option RegisterData) : M Response :=
  match data with
  | None => ret (jsonify (error_envelope "Username, email, and password are required") 400)
  | Some data =>
      if negb (Py.truthy_str (data_username data))
         || negb (Py.truthy_str (data_email data))
         || negb (Py.truthy_str (data_password data))
      then ret (jsonify (error_envelope "Username, email, and password are required") 400)
      else
        let username := get_default (data_username data) ""%string in
        let email := get_default (data_email data) ""%string in
        let password := get_default (data_password data) ""%string in
        by_name <- query (fun d => Query.user_by_username d username) ;;
        match by_name with
        | Some _ => ret (jsonify (error_envelope "Username already exists") 400)
        | None =>
            by_email <- query (fun d => Query.user_by_email d email) ;;
            match by_email with
            | Some _ => ret (jsonify (error_envelope "Email already exists") 400)
            | None =>
                let new_user :=
                  {| user_id := None;
                     user_username := username;
                     user_email := email;
                     user_password_hash := generate_password_hash password;
                     user_first_name := get_default (data_first_name data) ""%string;
                     user_last_name := get_default (data_last_name data) ""%string;
                     user_last_login := None |} in
                new_user <- add_and_commit_user new_user ;;
                ret (jsonify (JObj [("message", JStr "User registered successfully");
                                    ("user", to_dict new_user)]%string) 201)
            end
        end
  end.

(** [POST /register] from the request on.  [request.json] is read inside
    the [try]: the HTTP error that it raises, and the [AttributeError] of
    [data.items()] on a value that is not an object and that Python takes
    for true, are caught by the outer [except]. *)
Definition register_request (request : RequestJson RegisterData) : M Response :=
  match request with
  | NoJson | BadJson | JsonValue true =>
      ret (jsonify (error_envelope "An unexpected error occurred during registration") 500)
  | JsonValue false => register None
  | JsonObject data => register (Some data)
  end.

(** *** The other routes of [routes/api.py] *)

(** [db.session.add(seed); db.session.commit()] for a new seed. *)
Definition insert_seed (s : Seed) (d : Db) : Db :=
  {| seeds := seeds d ++ [s];
     seed_prices := seed_prices d;
     users := users d;
     seed_price_serial := seed_price_serial d;
     user_serial := user_serial d |}.

(** [GET /seeds] *)
Definition get_seeds : M Response :=
  seeds <- query seeds ;;
  ret (jsonify (JArr (map to_dict seeds)) 200).

(** [GET /seeds/<id>] *)
Definition get_seed (id : Z) : M Response :=
  found <- query (fun d => Query.get_seed d id) ;;
  match found with
  | None => ret abort_404
  | Some seed => ret (jsonify (to_dict seed) 200)
  end.

(** [GET /seeds/<id>/latest-price] *)
Definition get_seed_latest_price (id : Z) : M Response :=
  found <- query (fun d => Query.get_seed d id) ;;
  match found with
  | None => ret abort_404
  | Some seed =>
      latest_price <- query (fun d => Query.latest_price d id) ;;
      match latest_price with
      | None => ret (jsonify (error_envelope "No price history available for this seed") 404)
      | Some latest => ret (jsonify (to_dict latest) 200)
      end
  end.

(** [POST /seeds]; [new_id] is the value that the serial column of the seed
    table gives to the new row.  [data['name']] raises [KeyError] on a body
    without that key, before anything is written.  The first [commit]
    writes the seed, whose price the seed table keeps as it is sent; the
    second [commit] writes the observation, its price rounded to the two
    places of its column, or fails when the price is too large for that
    column, the seed being written already. *)
Definition create_seed (new_id : Z) (data : SeedData) : M Response :=
  match data_name data with
  | None => ret internal_server_error
  | Some name =>
      let new_seed :=
        {| seed_id := new_id;
           seed_name := name;
           seed_species := get_default (data_species data) None;
           seed_quantity := get_default (data_quantity data) 0;
           seed_price := data_price data;
           seed_description := get_default (data_description data) None |} in
      _ <- write_db (insert_seed new_seed) ;;
      if Py.truthy (seed_price new_seed) then
        recorded_at <- datetime_now ;;
        match Pg.numeric_10_2 (get_default (seed_price new_seed) 0%Q) with
        | Some price =>
            new_price <- add_and_commit_price
                           (SeedPrice_new (seed_id new_seed) price
                              (seed_quantity new_seed) recorded_at) ;;
            ret (jsonify (to_dict new_seed) 201)
        | None => ret internal_server_error
        end
      else ret (jsonify (to_dict new_seed) 201)
  end.

(** The library functions that the routes below call. *)
Variable lib : Library.

(** [GET /price-history/<seed_id>] *)
Definition get_seed_price_history (seed_id : Z) : M Response :=
  seed <- query (fun d => Query.get_seed d seed_id) ;;
  match seed with
  | None => ret (jsonify (error_envelope "Seed not found") 404)
  | Some _ =>
      price_history <- query (fun d =>
        Query.order_by sp_recorded_at (Query.filter_by_seed_id seed_id (seed_prices d))) ;;
      let result :=
        map (fun price =>
               JObj [("date", JStr (strftime_date lib (sp_recorded_at price)));
                     ("price", JNum (sp_price price))]%string)
            price_history in
      ret (jsonify (JArr result) 200)
  end.

(** *** The login route of [routes/auth.py] *)

(** A field of a request body that Python takes for false: the key is
    missing, or it holds the empty string. *)
Definition blank (field : option string) : Prop :=
  field = None \/ field = Some ""%string.

Definition set_last_login (u : User) (t : Z) : User :=
  {| user_id := user_id u; user_username := user_username u; user_email := user_email u;
     user_password_hash := user_password_hash u; user_first_name := user_first_name u;
     user_last_name := user_last_name u; user_last_login := Some t |}.

(** The first row that a query matched is overwritten by the session's
    copy of it. *)
Fixpoint replace_first {A : Type} (f : A -> bool) (new : A) (l : list A) : list A :=
  match l with
  | [] => []
  | x :: l' => if f x then new :: l' else x :: replace_first f new l'
  end.

Definition update_user (username : string) (u : User) (d : Db) : Db :=
  {| seeds := seeds d;
     seed_prices := seed_prices d;
     users := replace_first (fun x => String.eqb (user_username x) username) u (users d);
     seed_price_serial := seed_price_serial d;
     user_serial := user_serial d |}.

(** [POST /login] once [request.json] has returned; [data] is [None] when
    the value returned is one that Python takes for false and that is not
    an object; of the body only [username] and [password] are read. *)
Definition login (data : option RegisterData) : M Response :=
  match data with
  | None => ret (jsonify (error_envelope "Username and password are required") 400)
  | Some data =>
      if negb (Py.truthy_str (data_username data))
         || negb (Py.truthy_str (data_password data))
      then ret (jsonify (error_envelope "Username and password are required") 400)
      else
        let username := get_default (data_username data) ""%string in
        let password := get_default (data_password data) ""%string in
        user <- query (fun d => Query.user_by_username d username) ;;
        match user with
        | None => ret (jsonify (error_envelope "Invalid username or password") 401)
        | Some user =>
            if negb (check_password_hash lib (user_password_hash user) password)
            then ret (jsonify (error_envelope "Invalid username or password") 401)
            else
              now <- datetime_now ;;
              let user := set_last_login user now in
              _ <- write_db (update_user username user) ;;
              ret (jsonify
                     (JObj [("access_token", JStr (create_access_token lib (user_id user)));
                            ("refresh_token", JStr (create_refresh_token lib (user_id user)));
                            ("user", to_dict user)]%string) 200)
        end
  end.

(** [POST /login] from the request on.  [request.json] is read outside any
    [try]: its HTTP error is answered by [werkzeug], and the
    [AttributeError] of [data.get] on a value that is not an object and
    that Python takes for true is caught by nothing. *)
Definition login_request (request : RequestJson RegisterData) : M Response :=
  match request with
  | NoJson => ret unsupported_media_type
  | BadJson => ret bad_request
  | JsonValue true => ret internal_server_error
  | JsonValue false => login None
  | JsonObject data => login (Some data)
  end.

(** [User.query.get(user_id)]: the user with that primary key, if any. *)
Definition user_by_id (d : Db) (identity : option Z) : option User :=
  match identity with
  | None => None
  | Some id =>
      find (fun x => match user_id x with
                     | Some id' => id' =? id
                     | None => false
                     end) (users d)
  end.

(** [GET /me]; [identity] is what [get_jwt_identity()] reads from the
    token that [jwt_required] has accepted. *)
Definition get_user_info (identity : option Z) : M Response :=
  user <- query (fun d => user_by_id d identity) ;;
  match user with
  | None => ret (jsonify (error_envelope "User not found") 404)
  | Some user => ret (jsonify (to_dict user) 200)
  end.

(** [POST /refresh]; [identity] as for [get_user_info], from a refresh
    token. *)
Definition refresh (identity : option Z) : M Response :=
  user <- query (fun d => user_by_id d identity) ;;
  match user with
  | None => ret (jsonify (error_envelope "User not found") 404)
  | Some user =>
      ret (jsonify (JObj [("access_token", JStr (create_access_token lib identity));
                          ("user", to_dict user)]%string) 200)
  end.

(** *** Facts about the Python numerics *)

Lemma pow10_pos (n : nat) : (0 < Py.pow10 n)%Q.
Proof.
  unfold Py.pow10. change 0%Q with (inject_Z 0). rewrite <- Zlt_Qlt.
  apply Z.pow_pos_nonneg; lia.
Qed.

Lemma round_half_even_ge_floor (x : Q) : Qfloor x <= Py.round_half_even x.
Proof.
  unfold Py.round_half_even.
  destruct (Qcompare (x - inject_Z (Qfloor x)) (1 # 2)); try lia.
  destruct (Z.even (Qfloor x)); lia.
Qed.

Lemma round_half_even_inject (k : Z) : Py.round_half_even (inject_Z k) = k.
Proof.
  unfold Py.round_half_even. rewrite Qfloor_Z.
  assert (E : (inject_Z k - inject_Z k == 0)%Q) by ring.
  rewrite (Qcompare_comp _ _ E (1 # 2) (1 # 2) (Qeq_refl _)). reflexivity.
Qed.

Lemma round_half_even_comp (x y : Q) :
  (x == y)%Q -> Py.round_half_even x = Py.round_half_even y.
Proof.
  intros E. unfold Py.round_half_even.
  rewrite (Qfloor_comp _ _ E).
  assert (E' : (x - inject_Z (Qfloor y) == y - inject_Z (Qfloor y))%Q)
    by (rewrite E; reflexivity).
  rewrite (Qcompare_comp _ _ E' (1 # 2) (1 # 2) (Qeq_refl _)). reflexivity.
Qed.

Lemma round_places (x : Q) (n : nat) : Py.places n (Py.round x n).
Proof. exists (Py.round_half_even (x * Py.pow10 n)). reflexivity. Qed.


(** Rounding keeps a number that already has [n] places. *)
Lemma round_of_places (x : Q) (n : nat) : Py.places n x -> (Py.round x n == x)%Q.
Proof.
  intros [k Hk]. unfold Py.round.
  assert (P := pow10_pos n).
  assert (E : (x * Py.pow10 n == inject_Z k)%Q).
  { rewrite Hk. field. intros C. rewrite C in P. apply (Qlt_irrefl _ P). }
  rewrite (round_half_even_comp _ _ E), round_half_even_inject.
  symmetry. exact Hk.
Qed.

(** A lower bound with [n] places survives rounding to [n] places. *)
Lemma round_lower_bound (k : Z) (x : Q) (n : nat) :
  (inject_Z k / Py.pow10 n <= x)%Q -> (inject_Z k / Py.pow10 n <= Py.round x n)%Q.
Proof.
  intros H. assert (P := pow10_pos n). unfold Py.round.
  apply Qmult_le_compat_r; [| apply Qlt_le_weak, Qinv_lt_0_compat, P].
  rewrite <- Zle_Qle.
  eapply Z.le_trans; [| apply round_half_even_ge_floor].
  rewrite <- (Qfloor_Z k). apply Qfloor_resp_le.
  apply (Qmult_le_r _ _ (/ Py.pow10 n)); [apply Qinv_lt_0_compat, P|].
  setoid_replace (x * Py.pow10 n * / Py.pow10 n)%Q with x; [exact H|].
  field. intros C. rewrite C in P. apply (Qlt_irrefl _ P).
Qed.

Example round_ties_to_even :
  Py.round (5 # 2) 0 = 2%Q /\ Py.round (7 # 2) 0 = 4%Q /\ Py.round (- (5 # 2)) 0 = (- 2)%Q.
Proof. repeat split. Qed.

Example round_two_places : Py.round (25375 # 10000) 2 = (254 # 100)%Q.
Proof. reflexivity. Qed.

Lemma max_ge_left (a b : Q) : (a <= Py.max a b)%Q.
Proof.
  unfold Py.max. destruct (Qcompare a b) eqn:E.
  - apply Qle_refl.
  - apply Qlt_le_weak. rewrite Qlt_alt. exact E.
  - apply Qle_refl.
Qed.

Lemma round_half_even_le_ceil (x : Q) : Py.round_half_even x <= Qfloor x + 1.
Proof.
  unfold Py.round_half_even.
  destruct (Qcompare (x - inject_Z (Qfloor x)) (1 # 2)); try lia.
  destruct (Z.even (Qfloor x)); lia.
Qed.

(** The integer chosen is within one half of the number rounded. *)
Lemma round_half_even_close (x : Q) :
  (x - (1 # 2) <= inject_Z (Py.round_half_even x) <= x + (1 # 2))%Q.
Proof.
  pose proof (Qfloor_le x) as Hlo. pose proof (Qlt_floor x) as Hhi.
  rewrite inject_Z_plus in Hhi. change (inject_Z 1) with 1%Q in Hhi.
  unfold Py.round_half_even.
  destruct (Qcompare_spec (x - inject_Z (Qfloor x)) (1 # 2)) as [E | E | E].
  - destruct (Z.even (Qfloor x)); [| rewrite inject_Z_plus; change (inject_Z 1) with 1%Q];
      split; lra.
  - split; lra.
  - rewrite inject_Z_plus. change (inject_Z 1) with 1%Q. split; lra.
Qed.

Lemma round_half_even_mono (x y : Q) :
  (x <= y)%Q -> Py.round_half_even x <= Py.round_half_even y.
Proof.
  intros Hxy. pose proof (Qfloor_resp_le _ _ Hxy) as Hf.
  destruct (Z.eq_dec (Qfloor x) (Qfloor y)) as [E | E].
  - unfold Py.round_half_even. rewrite E.
    destruct (Qcompare_spec (x - inject_Z (Qfloor y)) (1 # 2)) as [Hx | Hx | Hx];
      destruct (Qcompare_spec (y - inject_Z (Qfloor y)) (1 # 2)) as [Hy | Hy | Hy];
      try (destruct (Z.even (Qfloor y))); try lia; exfalso; lra.
  - pose proof (round_half_even_le_ceil x). pose proof (round_half_even_ge_floor y). lia.
Qed.

Lemma round_mono (x y : Q) (n : nat) : (x <= y)%Q -> (Py.round x n <= Py.round y n)%Q.
Proof.
  intros H. assert (P := pow10_pos n). unfold Py.round.
  apply Qmult_le_compat_r; [| apply Qlt_le_weak, Qinv_lt_0_compat, P].
  rewrite <- Zle_Qle. apply round_half_even_mono.
  apply Qmult_le_compat_r; [exact H | apply Qlt_le_weak, P].
Qed.

(** Rounding to two places moves a number by at most half a cent. *)
Lemma round_two_places_close (x : Q) :
  (x - (1 # 200) <= Py.round x 2 <= x + (1 # 200))%Q.
Proof.
  unfold Py.round. change (Py.pow10 2) with (100 # 1).
  pose proof (round_half_even_close (x * (100 # 1))) as H.
  set (k := inject_Z (Py.round_half_even (x * (100 # 1)))) in *.
  unfold Qdiv. change (/ (100 # 1))%Q with (1 # 100). split; lra.
Qed.

Lemma max_cases (a b : Q) :
  (Py.max a b = a /\ (b <= a)%Q) \/ (Py.max a b = b /\ (a < b)%Q).
Proof.
  unfold Py.max. destruct (Qcompare_spec a b) as [E | E | E].
  - left. split; [reflexivity | rewrite E; apply Qle_refl].
  - right. split; [reflexivity | exact E].
  - left. split; [reflexivity | apply Qlt_le_weak, E].
Qed.

(** *** Facts about binary64 *)

Lemma pow2_pos (e : Z) : (0 < Float64.pow2 e)%Q.
Proof. apply Qpower_0_lt. reflexivity. Qed.

Lemma pow2_plus (a b : Z) : (Float64.pow2 (a + b) == Float64.pow2 a * Float64.pow2 b)%Q.
Proof. apply Qpower_plus. discriminate. Qed.

Lemma pow2_le (a b : Z) : a <= b -> (Float64.pow2 a <= Float64.pow2 b)%Q.
Proof. intros H. apply Qpower_le_compat_l; [exact H | discriminate]. Qed.

Lemma pow2_lt (a b : Z) : a < b -> (Float64.pow2 a < Float64.pow2 b)%Q.
Proof. intros H. apply Qpower_lt_compat_l; [exact H | reflexivity]. Qed.

Lemma pow2_inject (k : Z) : 0 <= k -> (Float64.pow2 k == inject_Z (2 ^ k))%Q.
Proof. intros H. unfold Float64.pow2. rewrite (Zpower_Qpower 2 k H). reflexivity. Qed.

(** Dividing by a power of two and multiplying by it again. *)
Lemma pow2_cancel (x : Q) (e : Z) : (x / Float64.pow2 e * Float64.pow2 e == x)%Q.
Proof. pose proof (pow2_pos e) as P. field. intros C. rewrite C in P. apply (Qlt_irrefl _ P). Qed.

Lemma div_pow2_le (x y : Q) (e : Z) :
  (x <= y)%Q -> (x / Float64.pow2 e <= y / Float64.pow2 e)%Q.
Proof.
  intros H. apply Qmult_le_compat_r; [exact H |].
  apply Qlt_le_weak, Qinv_lt_0_compat, pow2_pos.
Qed.

Lemma abs_num_den (x : Q) : (Qabs x * inject_Z (Zpos (Qden x)) == inject_Z (Z.abs (Qnum x)))%Q.
Proof.
  destruct x as [n d]. cbn [Qnum Qden]. rewrite <- Zabs_Qabs.
  rewrite (Qmake_Qdiv (Z.abs n) d). field. discriminate.
Qed.

(** [ilog2 x] is the exponent of the binade of [x]. *)
Lemma ilog2_spec (x : Q) :
  ~ (x == 0)%Q ->
  (Float64.pow2 (Float64.ilog2 x) <= Qabs x < Float64.pow2 (Float64.ilog2 x + 1))%Q.
Proof.
  intros Hx.
  assert (Hn : 0 < Z.abs (Qnum x)).
  { destruct x as [n d]. cbn [Qnum]. unfold Qeq in Hx. cbn in Hx. lia. }
  assert (Hd : 0 < Zpos (Qden x)) by reflexivity.
  pose proof (Z.log2_spec _ Hn) as [Hn1 Hn2].
  pose proof (Z.log2_spec _ Hd) as [Hd1 Hd2].
  pose proof (Z.log2_nonneg (Z.abs (Qnum x))) as Ha.
  pose proof (Z.log2_nonneg (Zpos (Qden x))) as Hb.
  pose proof (abs_num_den x) as E.
  pose proof (Qabs_nonneg x) as Habs.
  assert (HD : (0 < inject_Z (Zpos (Qden x)))%Q) by reflexivity.
  set (a := Z.log2 (Z.abs (Qnum x))) in *. set (b := Z.log2 (Zpos (Qden x))) in *.
  rewrite Zle_Qle in Hn1, Hd1. rewrite Zlt_Qlt in Hn2, Hd2.
  rewrite <- pow2_inject in Hn1, Hn2, Hd1, Hd2 by lia.
  set (N := inject_Z (Z.abs (Qnum x))) in *. set (D := inject_Z (Zpos (Qden x))) in *.
  set (X := Qabs x) in *.
  assert (Hlow : (Float64.pow2 (a - b - 1) < X)%Q).
  { pose proof (pow2_plus (a - b - 1) (Z.succ b)) as P.
    replace (a - b - 1 + Z.succ b) with a in P by lia.
    pose proof (pow2_pos (a - b - 1)) as P1. pose proof (pow2_pos (Z.succ b)) as P2.
    set (T := Float64.pow2 (a - b - 1)) in *. set (B := Float64.pow2 (Z.succ b)) in *.
    set (A := Float64.pow2 a) in *. clearbody T B A N D X.
    apply Qnot_le_lt. intros C.
    assert (S1 : (X * D <= T * D)%Q) by (apply Qmult_le_compat_r; lra).
    assert (S2 : (T * D < T * B)%Q) by (apply Qmult_lt_l; lra).
    lra. }
  assert (Hhigh : (X < Float64.pow2 (a - b + 1))%Q).
  { pose proof (pow2_plus (a - b + 1) b) as P.
    replace (a - b + 1 + b) with (Z.succ a) in P by lia.
    pose proof (pow2_pos (a - b + 1)) as P1. pose proof (pow2_pos b) as P2.
    set (T := Float64.pow2 (a - b + 1)) in *. set (B := Float64.pow2 b) in *.
    set (A := Float64.pow2 (Z.succ a)) in *. clearbody T B A N D X.
    apply Qnot_le_lt. intros C.
    assert (S1 : (T * B <= X * B)%Q) by (apply Qmult_le_compat_r; lra).
    assert (S2 : (X * B <= X * D)%Q) by (rewrite !(Qmult_comm X); apply Qmult_le_compat_r; lra).
    lra. }
  unfold Float64.ilog2. fold a b. fold X.
  destruct (Qle_bool (Float64.pow2 (a - b)) X) eqn:T.
  - apply Qle_bool_iff in T. split; [exact T | exact Hhigh].
  - replace (a - b - 1 + 1) with (a - b) by lia. split; [apply Qlt_le_weak, Hlow |].
    apply Qnot_le_lt. intros C. apply Qle_bool_iff in C. congruence.
Qed.

Lemma ilog2_unique (x : Q) (m : Z) :
  (Float64.pow2 m <= Qabs x < Float64.pow2 (m + 1))%Q -> Float64.ilog2 x = m.
Proof.
  intros [H1 H2].
  assert (Hx : ~ (x == 0)%Q).
  { intros C. pose proof (pow2_pos m) as P. rewrite C in H1. cbn in H1.
    apply (Qlt_irrefl 0). eapply Qlt_le_trans; [exact P | exact H1]. }
  destruct (ilog2_spec x Hx) as [S1 S2].
  assert (A : Float64.ilog2 x < m + 1).
  { apply (Qpower_lt_compat_l_inv (2 # 1)); [| reflexivity].
    eapply Qle_lt_trans; [exact S1 | exact H2]. }
  assert (B : m < Float64.ilog2 x + 1).
  { apply (Qpower_lt_compat_l_inv (2 # 1)); [| reflexivity].
    eapply Qle_lt_trans; [exact H1 | exact S2]. }
  lia.
Qed.

Lemma ilog2_mono (x y : Q) :
  ~ (x == 0)%Q -> (Qabs x <= Qabs y)%Q -> Float64.ilog2 x <= Float64.ilog2 y.
Proof.
  intros Hx Hxy.
  assert (Hy : ~ (y == 0)%Q).
  { intros C. rewrite C in Hxy. cbn in Hxy.
    apply Qabs_Qle_condition in Hxy. apply Hx. lra. }
  destruct (ilog2_spec x Hx) as [S1 _]. destruct (ilog2_spec y Hy) as [_ S2].
  assert (A : Float64.ilog2 x < Float64.ilog2 y + 1).
  { apply (Qpower_lt_compat_l_inv (2 # 1)); [| reflexivity].
    eapply Qle_lt_trans; [exact S1 |]. eapply Qle_lt_trans; [exact Hxy | exact S2]. }
  lia.
Qed.

Lemma ilog2_opp (x : Q) : Float64.ilog2 (- x) = Float64.ilog2 x.
Proof.
  unfold Float64.ilog2. destruct x as [n d]. cbn [Qnum Qden Qopp].
  rewrite Z.abs_opp.
  rewrite (Qleb_comp _ _ (Qeq_refl _) _ _ (Qabs_opp (n # d))). reflexivity.
Qed.

Lemma floor_unique (x : Q) (z : Z) :
  (inject_Z z <= x < inject_Z (z + 1))%Q -> Qfloor x = z.
Proof.
  intros [H1 H2].
  pose proof (Qfloor_resp_le _ _ H1) as A. rewrite Qfloor_Z in A.
  pose proof (Qfloor_le x) as B.
  assert (C : Qfloor x < z + 1).
  { rewrite Zlt_Qlt. eapply Qle_lt_trans; [exact B | exact H2]. }
  lia.
Qed.

Lemma round_half_even_opp (x : Q) : Py.round_half_even (- x) = - Py.round_half_even x.
Proof.
  pose proof (Qfloor_le x) as Hlo. pose proof (Qlt_floor x) as Hhi.
  rewrite inject_Z_plus in Hhi. change (inject_Z 1) with 1%Q in Hhi.
  set (f := Qfloor x) in *.
  destruct (Qeq_dec x (inject_Z f)) as [E | E].
  - assert (E' : (- x == inject_Z (- f))%Q) by (rewrite inject_Z_opp, E; reflexivity).
    rewrite (round_half_even_comp _ _ E'), (round_half_even_comp _ _ E),
      !round_half_even_inject. reflexivity.
  - assert (Hlo' : (inject_Z f < x)%Q).
    { apply Qnot_le_lt. intros C. apply E. apply Qle_antisym; assumption. }
    assert (F : Qfloor (- x) = - f - 1).
    { apply floor_unique. replace (- f - 1 + 1) with (- f) by lia.
      unfold Z.sub. rewrite inject_Z_plus, !inject_Z_opp. change (inject_Z 1) with 1%Q.
      split; lra. }
    unfold Py.round_half_even. rewrite F. fold f.
    unfold Z.sub. rewrite inject_Z_plus, !inject_Z_opp. change (inject_Z 1) with 1%Q.
    assert (Hev : Z.even (- f + - (1)) = negb (Z.even f)).
    { replace (- f + - (1)) with (- (f + 1)) by lia.
      rewrite Z.even_opp, Z.even_add. destruct (Z.even f); reflexivity. }
    rewrite Hev.
    destruct (Qcompare_spec (x - inject_Z f) (1 # 2)) as [Hx | Hx | Hx];
      destruct (Qcompare_spec (- x - (- inject_Z f + - (1))) (1 # 2)) as [Hy | Hy | Hy];
      try (exfalso; lra); try lia.
    destruct (Z.even f); cbn [negb]; lia.
Qed.

Lemma ulp_exponent_opp (x : Q) : Float64.ulp_exponent (- x) = Float64.ulp_exponent x.
Proof. unfold Float64.ulp_exponent. rewrite ilog2_opp. reflexivity. Qed.

Lemma nearest_opp (x : Q) : (Float64.nearest (- x) == - Float64.nearest x)%Q.
Proof.
  unfold Float64.nearest. rewrite ulp_exponent_opp.
  assert (E : (- x / Float64.pow2 (Float64.ulp_exponent x)
               == - (x / Float64.pow2 (Float64.ulp_exponent x)))%Q).
  { pose proof (pow2_pos (Float64.ulp_exponent x)) as P. field.
    intros C. rewrite C in P. apply (Qlt_irrefl _ P). }
  rewrite (round_half_even_comp _ _ E), round_half_even_opp, inject_Z_opp. ring.
Qed.

Lemma round_half_even_zero : Py.round_half_even 0 = 0.
Proof. reflexivity. Qed.

Lemma nearest_nonneg (x : Q) : (0 <= x)%Q -> (0 <= Float64.nearest x)%Q.
Proof.
  intros H. unfold Float64.nearest.
  apply Qmult_le_0_compat; [| apply Qlt_le_weak, pow2_pos].
  change 0%Q with (inject_Z 0). rewrite <- Zle_Qle. rewrite <- round_half_even_zero.
  apply round_half_even_mono. apply Qle_shift_div_l; [apply pow2_pos |].
  rewrite Qmult_0_l. exact H.
Qed.

(** Rounding to the nearest binary64 number keeps the order, for positive
    numbers. *)
Lemma nearest_mono_pos (x y : Q) :
  (0 < x)%Q -> (x <= y)%Q -> (Float64.nearest x <= Float64.nearest y)%Q.
Proof.
  intros Hx Hxy.
  assert (Hy : (0 < y)%Q) by (eapply Qlt_le_trans; eassumption).
  assert (Nx : ~ (x == 0)%Q) by (intros C; rewrite C in Hx; apply (Qlt_irrefl _ Hx)).
  assert (Ny : ~ (y == 0)%Q) by (intros C; rewrite C in Hy; apply (Qlt_irrefl _ Hy)).
  assert (Ax : (Qabs x == x)%Q) by (apply Qabs_pos, Qlt_le_weak, Hx).
  assert (Ay : (Qabs y == y)%Q) by (apply Qabs_pos, Qlt_le_weak, Hy).
  assert (Hl : Float64.ilog2 x <= Float64.ilog2 y).
  { apply ilog2_mono; [exact Nx |]. rewrite Ax, Ay. exact Hxy. }
  destruct (ilog2_spec x Nx) as [_ Sx]. destruct (ilog2_spec y Ny) as [Sy _].
  rewrite Ax in Sx. rewrite Ay in Sy.
  unfold Float64.nearest.
  set (ex := Float64.ulp_exponent x). set (ey := Float64.ulp_exponent y).
  assert (Hex : Float64.ilog2 x - 52 <= ex) by (unfold ex, Float64.ulp_exponent, Float64.prec; lia).
  assert (Hee : ex <= ey) by (unfold ex, ey, Float64.ulp_exponent; lia).
  destruct (Z.eq_dec ex ey) as [E | E].
  - rewrite E. apply Qmult_le_compat_r; [| apply Qlt_le_weak, pow2_pos].
    rewrite <- Zle_Qle. apply round_half_even_mono, div_pow2_le, Hxy.
  - assert (Hey : ey = Float64.ilog2 y - 52).
    { unfold ex, ey, Float64.ulp_exponent, Float64.prec in *. lia. }
    apply Qle_trans with (Float64.pow2 (53 + ex)).
    + rewrite pow2_plus.
      apply Qmult_le_compat_r; [| apply Qlt_le_weak, pow2_pos].
      rewrite (pow2_inject 53) by lia. rewrite <- Zle_Qle.
      rewrite <- (round_half_even_inject (2 ^ 53)).
      apply round_half_even_mono. rewrite <- (pow2_inject 53) by lia.
      apply Qle_shift_div_r; [apply pow2_pos |].
      rewrite <- pow2_plus. apply Qlt_le_weak.
      eapply Qlt_le_trans; [exact Sx |]. apply pow2_le. lia.
    + apply Qle_trans with (Float64.pow2 (52 + ey)); [apply pow2_le; lia |].
      rewrite pow2_plus.
      apply Qmult_le_compat_r; [| apply Qlt_le_weak, pow2_pos].
      rewrite (pow2_inject 52) by lia. rewrite <- Zle_Qle.
      rewrite <- (round_half_even_inject (2 ^ 52)) at 1.
      apply round_half_even_mono. rewrite <- (pow2_inject 52) by lia.
      apply Qle_shift_div_l; [apply pow2_pos |].
      rewrite <- pow2_plus. replace (52 + ey) with (Float64.ilog2 y) by lia. exact Sy.
Qed.

(** Rounding to the nearest binary64 number keeps the order. *)
Lemma nearest_mono (x y : Q) : (x <= y)%Q -> (Float64.nearest x <= Float64.nearest y)%Q.
Proof.
  intros Hxy.
  destruct (Qlt_le_dec 0 x) as [Hx | Hx]; [apply nearest_mono_pos; assumption |].
  destruct (Qlt_le_dec y 0) as [Hy | Hy].
  - assert (H : (Float64.nearest (- y) <= Float64.nearest (- x))%Q).
    { apply nearest_mono_pos; lra. }
    rewrite !nearest_opp in H. lra.
  - apply Qle_trans with 0%Q; [| apply nearest_nonneg, Hy].
    assert (H : (0 <= Float64.nearest (- x))%Q) by (apply nearest_nonneg; lra).
    rewrite nearest_opp in H. lra.
Qed.

(** A power of two within the exponent range is a binary64 number. *)
Lemma nearest_pow2 (k : Z) :
  Float64.emin <= k -> (Float64.nearest (Float64.pow2 k) == Float64.pow2 k)%Q.
Proof.
  intros Hk. pose proof (pow2_pos k) as P.
  assert (L : Float64.ilog2 (Float64.pow2 k) = k).
  { apply ilog2_unique. rewrite (Qabs_pos _ (Qlt_le_weak _ _ P)).
    split; [apply Qle_refl | apply pow2_lt; lia]. }
  unfold Float64.nearest, Float64.ulp_exponent. rewrite L.
  set (e := Z.max (k - (Float64.prec - 1)) Float64.emin).
  assert (He : e <= k) by (unfold e, Float64.prec, Float64.emin in *; lia).
  assert (E : (Float64.pow2 k / Float64.pow2 e == inject_Z (2 ^ (k - e)))%Q).
  { rewrite <- pow2_inject by lia. apply Qmult_inj_r with (Float64.pow2 e).
    - pose proof (pow2_pos e) as Pe. intros C. rewrite C in Pe. apply (Qlt_irrefl _ Pe).
    - rewrite pow2_cancel, <- pow2_plus. replace (k - e + e) with k by lia. reflexivity. }
  rewrite (round_half_even_comp _ _ E), round_half_even_inject.
  rewrite <- pow2_inject by lia. rewrite <- pow2_plus.
  replace (k - e + e) with k by lia. reflexivity.
Qed.

(** A number within [2^k] of zero is rounded to a binary64 number within
    [2^k] of zero, which is finite when [k] is below the largest exponent. *)
Lemma nearest_bounded (x : Q) (k : Z) :
  Float64.emin <= k -> (Qabs x <= Float64.pow2 k)%Q ->
  (Qabs (Float64.nearest x) <= Float64.pow2 k)%Q.
Proof.
  intros Hk Hx. apply Qabs_Qle_condition in Hx. destruct Hx as [H1 H2].
  apply Qabs_Qle_condition. split.
  - rewrite <- (nearest_pow2 k Hk), <- nearest_opp. apply nearest_mono, H1.
  - rewrite <- (nearest_pow2 k Hk). apply nearest_mono, H2.
Qed.

Lemma of_Q_finite (x : Q) (k : Z) :
  Float64.emin <= k < Float64.emax -> (Qabs x <= Float64.pow2 k)%Q ->
  Float64.of_Q x = Float64.Finite (Float64.nearest x).
Proof.
  intros Hk Hx. unfold Float64.of_Q.
  pose proof (nearest_bounded x k (proj1 Hk) Hx) as B.
  destruct (Qle_bool (Float64.pow2 Float64.emax) (Qabs (Float64.nearest x))) eqn:T;
    [| reflexivity].
  apply Qle_bool_iff in T. exfalso.
  pose proof (pow2_lt k Float64.emax (proj2 Hk)) as L.
  apply (Qlt_irrefl (Float64.pow2 k)).
  eapply Qlt_le_trans; [exact L |]. eapply Qle_trans; [exact T | exact B].
Qed.

Lemma bounded_of_Q (x : Q) (k : Z) :
  Float64.emin <= k < Float64.emax -> (Qabs x <= Float64.pow2 k)%Q ->
  Float64.bounded k (Float64.of_Q x).
Proof.
  intros Hk Hx. exists (Float64.nearest x).
  split; [apply (of_Q_finite x k Hk Hx) | apply nearest_bounded; [apply Hk | exact Hx]].
Qed.

Lemma bounded_le (a : Float64.float) (i j : Z) :
  i <= j -> Float64.bounded i a -> Float64.bounded j a.
Proof.
  intros Hij (q & E & H). exists q. split; [exact E |].
  eapply Qle_trans; [exact H | apply pow2_le, Hij].
Qed.

Lemma pow2_double (k : Z) : (Float64.pow2 (k + 1) == Float64.pow2 k + Float64.pow2 k)%Q.
Proof. rewrite pow2_plus. change (Float64.pow2 1) with (2 # 1). ring. Qed.

Lemma bounded_add (a b : Float64.float) (k : Z) :
  Float64.emin <= k -> k + 1 < Float64.emax ->
  Float64.bounded k a -> Float64.bounded k b -> Float64.bounded (k + 1) (Float64.add a b).
Proof.
  intros H1 H2 (x & -> & Hx) (y & -> & Hy). cbn [Float64.add].
  apply bounded_of_Q; [lia |]. rewrite pow2_double.
  eapply Qle_trans; [apply Qabs_triangle |]. apply Qplus_le_compat; assumption.
Qed.

Lemma bounded_opp (a : Float64.float) (k : Z) :
  Float64.bounded k a -> Float64.bounded k (Float64.opp a).
Proof.
  intros (x & -> & Hx). exists (- x)%Q. split; [reflexivity |]. rewrite Qabs_opp. exact Hx.
Qed.

Lemma bounded_sub (a b : Float64.float) (k : Z) :
  Float64.emin <= k -> k + 1 < Float64.emax ->
  Float64.bounded k a -> Float64.bounded k b -> Float64.bounded (k + 1) (Float64.sub a b).
Proof.
  intros H1 H2 Ha Hb. apply bounded_add; [assumption | assumption | exact Ha |].
  apply bounded_opp, Hb.
Qed.

Lemma bounded_mul (a b : Float64.float) (i j : Z) :
  Float64.emin <= i + j < Float64.emax ->
  Float64.bounded i a -> Float64.bounded j b -> Float64.bounded (i + j) (Float64.mul a b).
Proof.
  intros H (x & -> & Hx) (y & -> & Hy). cbn [Float64.mul].
  apply bounded_of_Q; [exact H |]. rewrite Qabs_Qmult, pow2_plus.
  pose proof (Qabs_nonneg x). pose proof (Qabs_nonneg y).
  pose proof (pow2_pos i). pose proof (pow2_pos j).
  apply Qle_trans with (Float64.pow2 i * Qabs y)%Q.
  - apply Qmult_le_compat_r; assumption.
  - rewrite !(Qmult_comm (Float64.pow2 i)). apply Qmult_le_compat_r; [assumption | lra].
Qed.

(** [max(0.2, x)] of a finite [x] is finite and not below the float 0.2. *)
Lemma max_floor_bounded (x : Float64.float) (k : Z) :
  0 <= k -> Float64.bounded k x ->
  exists m : Q,
    Float64.max (Float64.of_Q (2 # 10)) x = Float64.Finite m
    /\ (2 # 10 <= m)%Q /\ (Qabs m <= Float64.pow2 k)%Q.
Proof.
  intros Hk (q & -> & Hq).
  assert (Hc : (Qabs (2 # 10) <= Float64.pow2 0)%Q) by discriminate.
  rewrite (of_Q_finite (2 # 10) 0) by (unfold Float64.emin, Float64.emax; lia || exact Hc).
  assert (C : (2 # 10 <= Float64.nearest (2 # 10))%Q)
    by (apply Qle_bool_iff; vm_compute; reflexivity).
  unfold Float64.max. cbn [Float64.gt].
  destruct (Qle_bool q (Float64.nearest (2 # 10))) eqn:T; cbn [negb].
  - eexists. split; [reflexivity |]. split; [exact C |].
    eapply Qle_trans; [| apply (pow2_le 0 k Hk)].
    apply nearest_bounded; [unfold Float64.emin; lia | exact Hc].
  - eexists. split; [reflexivity |]. split; [| exact Hq].
    apply Qlt_le_weak. eapply Qle_lt_trans; [exact C |].
    apply Qnot_le_lt. intros A. apply Qle_bool_iff in A. congruence.
Qed.

(** [round(x, 2)] of a finite [x >= 0.2]: the binary64 number nearest to a
    number of cents, finite and not below 0.2. *)
Lemma round_floor_bounded (m : Q) (k : Z) :
  0 <= k -> k + 1 < Float64.emax ->
  (2 # 10 <= m)%Q -> (Qabs m <= Float64.pow2 k)%Q ->
  exists (cents : Z) (q : Q),
    Float64.round (Float64.Finite m) 2 = Float64.Finite q
    /\ (Float64.nearest (2 # 10) <= q)%Q
    /\ 20 <= cents
    /\ Float64.Finite q = Float64.of_Q (inject_Z cents / inject_Z 100).
Proof.
  intros Hk Hk' Hm Hb. cbn [Float64.round].
  assert (L : (inject_Z 20 / Py.pow10 2 <= Py.round m 2)%Q).
  { apply round_lower_bound. eapply Qle_trans; [| exact Hm]. discriminate. }
  pose proof (round_two_places_close m) as [R1 R2].
  assert (B : (Qabs (Py.round m 2) <= Float64.pow2 (k + 1))%Q).
  { apply Qabs_Qle_condition in Hb. apply Qabs_Qle_condition. rewrite pow2_double.
    pose proof (pow2_le 0 k Hk) as P. change (Float64.pow2 0) with 1%Q in P.
    split; lra. }
  assert (F : Float64.of_Q (Py.round m 2) = Float64.Finite (Float64.nearest (Py.round m 2))).
  { apply (of_Q_finite _ (k + 1)); [unfold Float64.emin; lia | exact B]. }
  exists (Py.round_half_even (m * Py.pow10 2)), (Float64.nearest (Py.round m 2)).
  split; [exact F |]. split; [| split].
  - apply nearest_mono. eapply Qle_trans; [| exact L]. discriminate.
  - unfold Py.round in L. pose proof (pow10_pos 2) as P.
    rewrite Zle_Qle. apply (Qmult_le_r _ _ (/ Py.pow10 2)); [apply Qinv_lt_0_compat, P |].
    exact L.
  - rewrite <- F. reflexivity.
Qed.

(** *** Facts about the numeric column *)

Lemma floor_half_close (x : Q) :
  (x - (1 # 2) < inject_Z (Qfloor (x + (1 # 2))) <= x + (1 # 2))%Q.
Proof.
  pose proof (Qfloor_le (x + (1 # 2))) as Hlo. pose proof (Qlt_floor (x + (1 # 2))) as Hhi.
  rewrite inject_Z_plus in Hhi. change (inject_Z 1) with 1%Q in Hhi. split; lra.
Qed.

(** The integer chosen is within one half of the number, and is the one
    further from zero when both neighbours are. *)
Lemma round_half_away_spec (x : Q) :
  let k := inject_Z (Pg.round_half_away x) in
  if Qle_bool 0 x
  then (0 <= x /\ 0 <= k /\ x - (1 # 2) < k <= x + (1 # 2))%Q
  else (x < 0 /\ k <= 0 /\ x - (1 # 2) <= k < x + (1 # 2))%Q.
Proof.
  unfold Pg.round_half_away. destruct (Qle_bool 0 x) eqn:T; cbv zeta.
  - apply Qle_bool_iff in T. pose proof (floor_half_close x) as [H1 H2].
    split; [exact T |]. split; [| split; assumption].
    change 0%Q with (inject_Z 0). rewrite <- Zle_Qle.
    assert (F : Qfloor 0 <= Qfloor (x + (1 # 2))) by (apply Qfloor_resp_le; lra).
    exact F.
  - assert (N : (x < 0)%Q).
    { apply Qnot_le_lt. intros C. apply Qle_bool_iff in C. congruence. }
    pose proof (floor_half_close (- x)) as [H1 H2].
    rewrite inject_Z_opp. split; [exact N |].
    assert (F : Qfloor 0 <= Qfloor (- x + (1 # 2))) by (apply Qfloor_resp_le; lra).
    change (Qfloor 0) with 0 in F. rewrite Zle_Qle in F. change (inject_Z 0) with 0%Q in F.
    split; [lra | split; lra].
Qed.

Lemma round_half_away_inject (k : Z) : Pg.round_half_away (inject_Z k) = k.
Proof.
  pose proof (round_half_away_spec (inject_Z k)) as H. cbv zeta in H.
  set (r := Pg.round_half_away (inject_Z k)) in *.
  assert (B : (inject_Z k - (1 # 2) <= inject_Z r <= inject_Z k + (1 # 2))%Q).
  { destruct (Qle_bool 0 (inject_Z k)); destruct H as (_ & _ & H1 & H2); split; lra. }
  destruct B as [B1 B2].
  assert (L : (inject_Z (k - 1) < inject_Z r)%Q).
  { unfold Z.sub. rewrite inject_Z_plus, inject_Z_opp. change (inject_Z 1) with 1%Q. lra. }
  assert (U : (inject_Z r < inject_Z (k + 1))%Q).
  { rewrite inject_Z_plus. change (inject_Z 1) with 1%Q. lra. }
  rewrite <- Zlt_Qlt in L, U. lia.
Qed.

Lemma round_half_away_comp (x y : Q) :
  (x == y)%Q -> Pg.round_half_away x = Pg.round_half_away y.
Proof.
  intros E. unfold Pg.round_half_away.
  rewrite (Qleb_comp _ _ (Qeq_refl 0) _ _ E).
  assert (E1 : (x + (1 # 2) == y + (1 # 2))%Q) by (rewrite E; reflexivity).
  assert (E2 : (- x + (1 # 2) == - y + (1 # 2))%Q) by (rewrite E; reflexivity).
  rewrite (Qfloor_comp _ _ E1), (Qfloor_comp _ _ E2). reflexivity.
Qed.

Lemma abs_cases (x : Q) :
  ((0 <= x)%Q /\ (Qabs x == x)%Q) \/ ((x < 0)%Q /\ (Qabs x == - x)%Q).
Proof.
  destruct (Qlt_le_dec x 0) as [H | H].
  - right. split; [exact H | apply Qabs_neg, Qlt_le_weak, H].
  - left. split; [exact H | apply Qabs_pos, H].
Qed.

(** What the column stores is the number in cents. *)
Lemma numeric_in_cents (q stored : Q) :
  Pg.numeric_10_2 q = Some stored -> in_cents q stored.
Proof.
  unfold Pg.numeric_10_2. destruct (Z.abs _ <? 10 ^ 10); [| discriminate].
  intros E. injection E as <-.
  pose proof (round_half_away_spec (q * 100)) as H. cbv zeta in H.
  set (k := inject_Z (Pg.round_half_away (q * 100))) in *.
  split; [exists (Pg.round_half_away (q * 100)); reflexivity |].
  unfold Qdiv. change (/ 100)%Q with (1 # 100).
  destruct (Qle_bool 0 (q * 100)); destruct H as (S1 & S2 & H1 & H2); clearbody k.
  - destruct (abs_cases (k * (1 # 100) - q)) as [[A1 A2] | [A1 A2]]; rewrite A2;
      (split; [lra |]); intros T.
    + rewrite (Qabs_pos q) by lra. rewrite (Qabs_pos (k * (1 # 100))) by lra. lra.
    + exfalso. lra.
  - destruct (abs_cases (k * (1 # 100) - q)) as [[A1 A2] | [A1 A2]]; rewrite A2;
      (split; [lra |]); intros T.
    + exfalso. lra.
    + rewrite (Qabs_neg q) by lra. rewrite (Qabs_neg (k * (1 # 100))) by lra. lra.
Qed.

(** The column takes a number exactly when its cents have at most ten
    digits. *)
Lemma numeric_fits (q : Q) :
  (exists stored, Pg.numeric_10_2 q = Some stored) <-> fits_numeric_10_2 q.
Proof.
  unfold Pg.numeric_10_2, fits_numeric_10_2.
  pose proof (round_half_away_spec (q * 100)) as H. cbv zeta in H.
  set (c := Pg.round_half_away (q * 100)) in *.
  assert (T : Z.abs c < 10 ^ 10 <-> (Qabs q < 99999999995 # 1000)%Q).
  { change (10 ^ 10) with 10000000000.
    destruct (Qle_bool 0 (q * 100)); destruct H as (S1 & S2 & H1 & H2).
    - change 0%Q with (inject_Z 0) in S2. rewrite <- Zle_Qle in S2.
      rewrite (Z.abs_eq c S2). rewrite (Qabs_pos q) by lra.
      split; intros A.
      + assert (A' : c <= 9999999999) by lia. rewrite Zle_Qle in A'.
        change (inject_Z 9999999999) with (9999999999 # 1) in A'. lra.
      + assert (A' : (inject_Z c < inject_Z 10000000000)%Q)
          by (change (inject_Z 10000000000) with (10000000000 # 1); lra).
        rewrite <- Zlt_Qlt in A'. exact A'.
    - change 0%Q with (inject_Z 0) in S2. rewrite <- Zle_Qle in S2.
      rewrite (Z.abs_neq c S2). rewrite (Qabs_neg q) by lra.
      split; intros A.
      + assert (A' : - 9999999999 <= c) by lia. rewrite Zle_Qle in A'.
        change (inject_Z (- 9999999999)) with (- (9999999999 # 1))%Q in A'. lra.
      + assert (A' : (inject_Z (- 10000000000) < inject_Z c)%Q)
          by (change (inject_Z (- 10000000000)) with (- (10000000000 # 1))%Q; lra).
        rewrite <- Zlt_Qlt in A'. lia. }
  destruct (Z.ltb_spec (Z.abs c) (10 ^ 10)) as [L | L].
  - split; [intros _; apply T, L | intros _; eexists; reflexivity].
  - split; [intros [s Hs]; discriminate | intros A; apply T in A; lia].
Qed.

(** A number of cents is stored as it is, and only such a number is. *)
Lemma in_cents_same (q stored : Q) :
  in_cents q stored -> ((stored == q)%Q <-> Py.places 2 q).
Proof.
  intros ([k Hk] & Hclose & _). split.
  - intros E. exists k. rewrite <- E. exact Hk.
  - intros [j Hj]. change (Py.pow10 2) with (100 # 1) in *.
    apply Qabs_Qle_condition in Hclose. destruct Hclose as [C1 C2].
    unfold Qdiv in *. change (/ (100 # 1))%Q with (1 # 100) in *.
    assert (L : (inject_Z (j - 1) < inject_Z k)%Q).
    { unfold Z.sub. rewrite inject_Z_plus, inject_Z_opp. change (inject_Z 1) with 1%Q. lra. }
    assert (U : (inject_Z k < inject_Z (j + 1))%Q).
    { rewrite inject_Z_plus. change (inject_Z 1) with 1%Q. lra. }
    rewrite <- Zlt_Qlt in L, U. assert (k = j) by lia. subst k. lra.
Qed.

(** *** Pricing engine *)

(** [round(max(0.2, p + p * change), 2)] over binary64, for a price up to
    [10^300], a volatility within [-1, 1] and a second draw in [0, 1): no
    operation overflows, and the result is the float nearest to a number
    of cents, not below the float 0.2. *)
Lemma binary64_price_change_finite (r u p volatility : Q) :
  (0 < p <= inject_Z (10 ^ 300))%Q ->
  (- (1) <= volatility <= 1)%Q ->
  (0 <= u < 1)%Q ->
  let trend := if Float64.gt (Float64.of_Q r) (Float64.of_Q (1 # 2))
               then Float64.of_Q 1 else Float64.of_Q (- (1)) in
  let change :=
    Float64.add
      (Float64.mul (Float64.sub (Float64.of_Q u) (Float64.of_Q (1 # 2)))
         (Float64.of_Q volatility))
      (Float64.mul trend (Float64.of_Q (2 # 100))) in
  exists (cents : Z) (q : Q),
    Float64.round
      (Float64.max (Float64.of_Q (2 # 10))
         (Float64.add (Float64.of_Q p) (Float64.mul (Float64.of_Q p) change))) 2
    = Float64.Finite q
    /\ (Float64.nearest (2 # 10) <= q)%Q
    /\ 20 <= cents
    /\ Float64.Finite q = Float64.of_Q (inject_Z cents / inject_Z 100).
Proof.
  intros Hp Hv Hu trend change.
  assert (R : forall k, 0 <= k < 1024 -> Float64.emin <= k < Float64.emax)
    by (unfold Float64.emin, Float64.emax; lia).
  assert (Bu : Float64.bounded 0 (Float64.of_Q u)).
  { apply bounded_of_Q; [apply R; lia |]. apply Qabs_Qle_condition.
    change (Float64.pow2 0) with 1%Q. split; lra. }
  assert (Bh : Float64.bounded 0 (Float64.of_Q (1 # 2))).
  { apply bounded_of_Q; [apply R; lia | discriminate]. }
  assert (Bv : Float64.bounded 0 (Float64.of_Q volatility)).
  { apply bounded_of_Q; [apply R; lia |]. apply Qabs_Qle_condition.
    change (Float64.pow2 0) with 1%Q. split; lra. }
  assert (Bt : Float64.bounded 0 trend).
  { unfold trend. destruct (Float64.gt _ _);
      (apply bounded_of_Q; [apply R; lia | discriminate]). }
  assert (Bc : Float64.bounded 0 (Float64.of_Q (2 # 100))).
  { apply bounded_of_Q; [apply R; lia | discriminate]. }
  assert (Bp : Float64.bounded 997 (Float64.of_Q p)).
  { apply bounded_of_Q; [apply R; lia |]. apply Qabs_Qle_condition.
    assert (T : (inject_Z (10 ^ 300) <= Float64.pow2 997)%Q)
      by (apply Qle_bool_iff; vm_compute; reflexivity).
    set (top := inject_Z (10 ^ 300)) in *. set (bound := Float64.pow2 997) in *.
    clearbody top bound. split; lra. }
  assert (B1 : Float64.bounded 1 (Float64.sub (Float64.of_Q u) (Float64.of_Q (1 # 2)))).
  { apply (bounded_sub _ _ 0); [apply R; lia | unfold Float64.emax; lia | exact Bu | exact Bh]. }
  assert (B2 : Float64.bounded 1
                 (Float64.mul (Float64.sub (Float64.of_Q u) (Float64.of_Q (1 # 2)))
                    (Float64.of_Q volatility))).
  { apply (bounded_mul _ _ 1 0); [apply R; lia | exact B1 | exact Bv]. }
  assert (B3 : Float64.bounded 1 (Float64.mul trend (Float64.of_Q (2 # 100)))).
  { apply (bounded_le _ 0); [lia |].
    apply (bounded_mul _ _ 0 0); [apply R; lia | exact Bt | exact Bc]. }
  assert (B4 : Float64.bounded 2 change).
  { apply (bounded_add _ _ 1); [apply R; lia | unfold Float64.emax; lia | exact B2 | exact B3]. }
  clearbody change.
  assert (B5 : Float64.bounded 999 (Float64.mul (Float64.of_Q p) change)).
  { apply (bounded_mul _ _ 997 2); [apply R; lia | exact Bp | exact B4]. }
  assert (B6 : Float64.bounded 1000
                 (Float64.add (Float64.of_Q p) (Float64.mul (Float64.of_Q p) change))).
  { apply (bounded_add _ _ 999); [apply R; lia | unfold Float64.emax; lia | | exact B5].
    apply (bounded_le _ 997); [lia | exact Bp]. }
  destruct (max_floor_bounded _ 1000 ltac:(lia) B6) as (m & -> & Hm & Hb).
  apply (round_floor_bounded m 1000); [lia | unfold Float64.emax; lia | exact Hm | exact Hb].
Qed.

(** C2 (amended). For every previous price [p] with [0 < p <= 10^300],
    every volatility in [-1, 1] and every pair of draws of which the second
    lies in [0, 1), [calculate_price_change], computed over binary64 as
    Python computes it, returns a finite float that is not below 0.20 and is
    the float nearest to a number of cents, of which there are at least 20;
    it is [round(max(0.20, p + p * change), 2)] with
    [change = (u - 0.5) * volatility + trend * 0.02] and [trend] either
    [1] or [-1], where [u] is the second draw and the first draw picks the
    trend. *)
Theorem calculate_price_change_binary64_floor_and_rounding
        (p volatility : Q) (w : World) :
  (0 < p <= inject_Z (10 ^ 300))%Q ->
  (- (1) <= volatility <= 1)%Q ->
  (0 <= random_at (S (rng_pos w)) < 1)%Q ->
  let r := Float64.of_Q (random_at (rng_pos w)) in
  let u := Float64.of_Q (random_at (S (rng_pos w))) in
  let trend := if Float64.gt r (Float64.of_Q (1 # 2))
               then Float64.of_Q 1 else Float64.of_Q (- (1)) in
  let change :=
    Float64.add
      (Float64.mul (Float64.sub u (Float64.of_Q (1 # 2))) (Float64.of_Q volatility))
      (Float64.mul trend (Float64.of_Q (2 # 100))) in
  let new_price := fst (calculate_price_change_binary64 p volatility w) in
  new_price
  = Float64.round
      (Float64.max (Float64.of_Q (2 # 10))
         (Float64.add (Float64.of_Q p) (Float64.mul (Float64.of_Q p) change))) 2
  /\ Float64.gt (Float64.of_Q (2 # 10)) new_price = false
  /\ exists (cents : Z) (q : Q),
       new_price = Float64.Finite q
       /\ (2 # 10 <= q)%Q
       /\ 20 <= cents
       /\ new_price = Float64.of_Q (inject_Z cents / inject_Z 100).
Proof.
  intros Hp Hv Hu r u trend change new_price.
  assert (E : new_price
              = Float64.round
                  (Float64.max (Float64.of_Q (2 # 10))
                     (Float64.add (Float64.of_Q p) (Float64.mul (Float64.of_Q p) change))) 2)
    by reflexivity.
  destruct (binary64_price_change_finite (random_at (rng_pos w)) _ p volatility Hp Hv Hu)
    as (cents & q & Hq & Hfloor & Hcents & Hnear).
  fold r u trend change in Hq. rewrite <- E in Hq.
  assert (F : Float64.of_Q (2 # 10) = Float64.Finite (Float64.nearest (2 # 10))).
  { apply (of_Q_finite _ 0); [unfold Float64.emin, Float64.emax; lia | discriminate]. }
  split; [exact E |]. split.
  - rewrite Hq, F. cbn [Float64.gt].
    apply (proj2 (Qle_bool_iff _ _)) in Hfloor. rewrite Hfloor. reflexivity.
  - exists cents, q. split; [exact Hq |]. split; [| split; [exact Hcents |]].
    + eapply Qle_trans; [| exact Hfloor]. apply Qle_bool_iff. vm_compute. reflexivity.
    + rewrite Hq. exact Hnear.
Qed.

(** Unfold the monad and reduce the projections of the worlds it builds. *)
Ltac run :=
  cbn [bind ret query write_db datetime_now random randint uniform next_rng
       add_and_commit_price add_and_commit_user bulk_save_objects
       insert_prices insert_user replace_seed
       fst snd db rng_pos clock_pos seeds seed_prices users
       seed_price_serial user_serial].

(** *** Facts about the queries *)

Lemma insert_by_perm {A : Type} (key : A -> Z) (x : A) (l : list A) :
  Permutation (Query.insert_by key x l) (x :: l).
Proof.
  induction l as [| y l IH]; simpl.
  - apply Permutation_refl.
  - destruct (key x <=? key y).
    + apply Permutation_refl.
    + eapply perm_trans; [apply perm_skip, IH | apply perm_swap].
Qed.

Lemma order_by_perm {A : Type} (key : A -> Z) (l : list A) :
  Permutation (Query.order_by key l) l.
Proof.
  induction l as [| x l IH]; simpl.
  - apply perm_nil.
  - eapply perm_trans; [apply insert_by_perm | apply perm_skip, IH].
Qed.

Lemma order_by_in {A : Type} (key : A -> Z) (l : list A) (x : A) :
  In x (Query.order_by key l) <-> In x l.
Proof.
  split; apply Permutation_in;
    [apply order_by_perm | apply Permutation_sym, order_by_perm].
Qed.

Lemma order_by_length {A : Type} (key : A -> Z) (l : list A) :
  List.length (Query.order_by key l) = List.length l.
Proof. apply Permutation_length, order_by_perm. Qed.

Lemma order_by_nil {A : Type} (key : A -> Z) (l : list A) :
  Query.order_by key l = [] -> l = [].
Proof.
  intros E. apply Permutation_nil. rewrite <- E. apply order_by_perm.
Qed.

Lemma insert_by_sorted {A : Type} (key : A -> Z) (x : A) (l : list A) :
  Sorted (Query.key_le key) l -> Sorted (Query.key_le key) (Query.insert_by key x l).
Proof.
  induction 1 as [| y l Hl IH Hd]; simpl.
  - repeat constructor.
  - destruct (Z.leb_spec (key x) (key y)) as [Hxy | Hxy].
    + constructor; [constructor; assumption | constructor; exact Hxy].
    + constructor; [exact IH |].
      destruct Hd as [| z l' Hyz]; simpl.
      * constructor. unfold Query.key_le. lia.
      * destruct (key x <=? key z); constructor; unfold Query.key_le in *; lia.
Qed.

Lemma order_by_sorted {A : Type} (key : A -> Z) (l : list A) :
  Sorted (Query.key_le key) (Query.order_by key l).
Proof.
  induction l as [| x l IH]; simpl.
  - constructor.
  - apply insert_by_sorted, IH.
Qed.

Lemma order_by_strongly_sorted {A : Type} (key : A -> Z) (l : list A) :
  StronglySorted (Query.key_le key) (Query.order_by key l).
Proof.
  apply Sorted_StronglySorted; [| apply order_by_sorted].
  intros a b c. unfold Query.key_le. lia.
Qed.

Lemma get_seed_none (d : Db) (id : Z) :
  (forall s, In s (seeds d) -> seed_id s <> id) -> Query.get_seed d id = None.
Proof.
  intros H. unfold Query.get_seed.
  destruct (find _ _) as [s |] eqn:E; [| reflexivity].
  apply find_some in E. destruct E as [Hin Hid].
  apply Z.eqb_eq in Hid. destruct (H s Hin Hid).
Qed.

Lemma get_seed_some (d : Db) (id : Z) (s : Seed) :
  Query.get_seed d id = Some s -> In s (seeds d) /\ seed_id s = id.
Proof.
  intros E. apply find_some in E. rewrite Z.eqb_eq in E. exact E.
Qed.

Lemma filter_history_in (id cutoff : Z) (rows : list SeedPrice) (p : SeedPrice) :
  In p (Query.filter_history id cutoff rows)
  <-> In p rows /\ sp_seed_id p = id /\ cutoff <= sp_recorded_at p.
Proof.
  unfold Query.filter_history. rewrite filter_In, andb_true_iff, Z.eqb_eq, Z.leb_le.
  tauto.
Qed.


Lemma latest_price_none (d : Db) (id : Z) :
  Query.latest_price d id = None <-> Query.filter_by_seed_id id (seed_prices d) = [].
Proof.
  unfold Query.latest_price, Query.first, Query.order_by_desc. split.
  - intros H. destruct (Query.order_by _ _) eqn:E; [| discriminate].
    apply order_by_nil in E. exact E.
  - intros H. rewrite H. reflexivity.
Qed.

Lemma latest_price_in (d : Db) (id : Z) (latest : SeedPrice) :
  Query.latest_price d id = Some latest ->
  In latest (seed_prices d) /\ sp_seed_id latest = id.
Proof.
  unfold Query.latest_price, Query.first, Query.order_by_desc. intros H.
  destruct (Query.order_by _ _) as [| x l] eqn:E; [discriminate |].
  injection H as ->.
  assert (Hin : In latest (Query.order_by (fun r => - sp_recorded_at r)
                             (Query.filter_by_seed_id id (seed_prices d))))
    by (rewrite E; left; reflexivity).
  apply order_by_in in Hin. unfold Query.filter_by_seed_id in Hin.
  apply filter_In in Hin. rewrite Z.eqb_eq in Hin. exact Hin.
Qed.

Lemma order_by_head_least {A : Type} (key : A -> Z) (l : list A) (x : A) (rest : list A) :
  Query.order_by key l = x :: rest -> forall y, In y l -> key x <= key y.
Proof.
  intros E y Hy. pose proof (order_by_strongly_sorted key l) as Hs. rewrite E in Hs.
  apply (order_by_in key) in Hy. rewrite E in Hy.
  inversion Hs as [| a l' _ Hall]; subst. destruct Hy as [<- | Hy]; [lia |].
  rewrite Forall_forall in Hall. apply Hall, Hy.
Qed.

(** The latest observation is one of the seed's, and none is more recent. *)
Lemma latest_price_is_latest (d : Db) (id : Z) (latest : SeedPrice) :
  Query.latest_price d id = Some latest ->
  forall p, In p (seed_prices d) -> sp_seed_id p = id ->
            sp_recorded_at p <= sp_recorded_at latest.
Proof.
  unfold Query.latest_price, Query.first, Query.order_by_desc. intros H p Hp Hid.
  destruct (Query.order_by _ _) as [| x rest] eqn:E; [discriminate |].
  injection H as ->.
  pose proof (order_by_head_least _ _ _ _ E p) as Hle. cbv beta in Hle.
  assert (In p (Query.filter_by_seed_id id (seed_prices d))).
  { unfold Query.filter_by_seed_id. apply filter_In. split; [exact Hp |].
    apply Z.eqb_eq, Hid. }
  specialize (Hle H). lia.
Qed.



(** *** Price history *)

Lemma days_of_unknown (timeframe : string) :
  ~ In timeframe ["1d"; "1w"; "1m"; "3m"; "1y"]%string -> days_of timeframe = 7.
Proof.
  intros H. unfold days_of, timeframe_days. cbn [Py.dict_get]. simpl In in H.
  repeat match goal with
  | |- context [String.eqb ?a timeframe] =>
      destruct (String.eqb_spec a timeframe) as [E | _];
        [exfalso; apply H; rewrite <- E; repeat ((left; reflexivity) || right) |]
  end.
  reflexivity.
Qed.

(** C3. [get_price_history] maps the timeframe through the table
    [1d:1, 1w:7, 1m:30, 3m:90, 1y:365], any other string and the default
    argument giving 7 days; and for an existing seed with matching rows it
    returns, store untouched, the [to_dict] of exactly the observations of
    that seed recorded at or after [now - days], in non-decreasing order of
    their recorded timestamp. *)
Theorem get_price_history_window (id : Z) (timeframe : string) (w : World) (seed : Seed) :
  let cutoff := now_at (clock_pos w) - Py.timedelta_days (days_of timeframe) in
  Query.get_seed (db w) id = Some seed ->
  (exists p, In p (seed_prices (db w)) /\ sp_seed_id p = id /\ cutoff <= sp_recorded_at p) ->
  (days_of "1d" = 1 /\ days_of "1w" = 7 /\ days_of "1m" = 30
   /\ days_of "3m" = 90 /\ days_of "1y" = 365
   /\ days_of default_timeframe = 7
   /\ (~ In timeframe ["1d"; "1w"; "1m"; "3m"; "1y"]%string -> days_of timeframe = 7))
  /\ exists rows : list SeedPrice,
       fst (get_price_history id timeframe w) = map to_dict rows
       /\ db (snd (get_price_history id timeframe w)) = db w
       /\ Permutation rows
            (filter (fun p => (sp_seed_id p =? id) && (cutoff <=? sp_recorded_at p))
                    (seed_prices (db w)))
       /\ (forall p, In p rows <->
                     In p (seed_prices (db w)) /\ sp_seed_id p = id
                     /\ cutoff <= sp_recorded_at p)
       /\ StronglySorted (fun a b => sp_recorded_at a <= sp_recorded_at b) rows.
Proof.
  intros cutoff Hseed [p0 Hp0]. split.
  { repeat (split; [reflexivity |]). apply days_of_unknown. }
  exists (Query.order_by sp_recorded_at
            (Query.filter_history id cutoff (seed_prices (db w)))).
  assert (Hne : Query.order_by sp_recorded_at
                  (Query.filter_history id cutoff (seed_prices (db w))) <> []).
  { intros C. apply order_by_nil in C.
    apply filter_history_in in Hp0. rewrite C in Hp0. destruct Hp0. }
  unfold get_price_history. run. rewrite Hseed. run. fold cutoff.
  destruct (Query.order_by sp_recorded_at
              (Query.filter_history id cutoff (seed_prices (db w)))) as [| r rs] eqn:E;
    [destruct (Hne eq_refl) |].
  run. rewrite <- E.
  split; [reflexivity |]. split; [reflexivity |].
  split; [apply order_by_perm |].
  split; [intros p; rewrite order_by_in; apply filter_history_in |].
  apply (order_by_strongly_sorted sp_recorded_at).
Qed.

Lemma randint_range (a b : Z) (w : World) :
  a <= b -> a <= fst (randint a b w) <= b.
Proof.
  intros H. unfold randint. cbn [fst].
  assert (0 <= randbits_at (rng_pos w) mod (b - a + 1) < b - a + 1)
    by (apply Z.mod_pos_bound; lia).
  lia.
Qed.




(** C6. For a seed id that no seed carries, [get_price_history] returns
    the empty list and leaves the store as it is, and the route
    [GET /seeds/<id>/prices] answers with an empty JSON array and status
    200, which is neither a 404 nor an error envelope. *)
Theorem get_seed_prices_unknown_seed
        (id : Z) (timeframe : string) (args_timeframe : option string) (w : World) :
  (forall s, In s (seeds (db w)) -> seed_id s <> id) ->
  fst (get_price_history id timeframe w) = []
  /\ db (snd (get_price_history id timeframe w)) = db w
  /\ fst (get_seed_prices id args_timeframe w) = {| body := JArr []; status := 200 |}
  /\ db (snd (get_seed_prices id args_timeframe w)) = db w.
Proof.
  intros Habsent. apply get_seed_none in Habsent.
  assert (H : forall tf, get_price_history id tf w
              = ([], {| db := db w; rng_pos := rng_pos w; clock_pos := S (clock_pos w) |})).
  { intros tf. unfold get_price_history. run. rewrite Habsent. reflexivity. }
  unfold get_seed_prices, bind. rewrite !H. run.
  split; [reflexivity |]. split; [reflexivity |]. split; reflexivity.
Qed.

(** *** Scheduled update *)

Lemma price_record_run (seed : Seed) (w0 w : World) :
  db w = db w0 -> (clock_pos w0 <= clock_pos w)%nat ->
  db (snd (price_record seed w)) = db w0
  /\ clock_pos (snd (price_record seed w)) = S (clock_pos w)
  /\ tick_row w0 seed (fst (price_record seed w)).
Proof.
  intros Hdb Hclk. unfold price_record, tick_row. run. rewrite Hdb.
  destruct (Query.latest_price (db w0) (seed_id seed)) as [latest |].
  - unfold calculate_price_change. run. rewrite Hdb.
    split; [reflexivity |]. split; [reflexivity |]. split; [reflexivity |].
    split; [apply (randint_range 500 10500 (next_rng (next_rng w))); lia |].
    split; [exists (clock_pos w); split; [lia | reflexivity] |].
    exists w. reflexivity.
  - unfold calculate_base_price. run. rewrite Hdb.
    split; [reflexivity |]. split; [reflexivity |]. split; [reflexivity |].
    split; [apply (randint_range 500 10500 (next_rng w)); lia |].
    split; [exists (clock_pos w); split; [lia | reflexivity] |].
    exists w. reflexivity.
Qed.

Lemma for_each_price_record (l : list Seed) (w0 : World) :
  forall w : World,
    db w = db w0 -> (clock_pos w0 <= clock_pos w)%nat ->
    db (snd (for_each price_record l w)) = db w0
    /\ Forall2 (tick_row w0) l (fst (for_each price_record l w)).
Proof.
  induction l as [| seed l IH]; intros w Hdb Hclk.
  - split; [exact Hdb | constructor].
  - cbn [for_each]. unfold bind.
    destruct (price_record_run seed w0 w Hdb Hclk) as (Hdb1 & Hclk1 & Hrow).
    destruct (price_record seed w) as [row w1]. cbn [fst snd] in *.
    assert (Hclk' : (clock_pos w0 <= clock_pos w1)%nat) by lia.
    destruct (IH w1 Hdb1 Hclk') as (Hdb2 & Hrows).
    destruct (for_each price_record l w1) as [rows w2]. cbn [fst snd ret] in *.
    split; [exact Hdb2 | constructor; assumption].
Qed.

Lemma assign_ids_tick_rows (w0 : World) (l : list Seed) (rows : list SeedPrice) :
  Forall2 (tick_row w0) l rows ->
  forall next : Z, Forall2 (tick_row w0) l (assign_ids next rows).
Proof.
  induction 1 as [| seed row l rows Hrow Hrows IH]; intros next; cbn [assign_ids].
  - constructor.
  - constructor; [exact Hrow | apply IH].
Qed.

(** One tick, as a whole: the count returned and the rows appended. *)
Lemma update_seed_prices_run (w : World) :
  exists rows : list SeedPrice,
    fst (update_seed_prices w) = List.length (seeds (db w))
    /\ seeds (db (snd (update_seed_prices w))) = seeds (db w)
    /\ users (db (snd (update_seed_prices w))) = users (db w)
    /\ seed_prices (db (snd (update_seed_prices w))) = seed_prices (db w) ++ rows
    /\ Forall2 (tick_row w) (seeds (db w)) rows.
Proof.
  unfold update_seed_prices, bind. cbn [query].
  destruct (for_each_price_record (seeds (db w)) w w eq_refl (le_n _)) as (Hdb & Hrows).
  destruct (for_each price_record (seeds (db w)) w) as [updates w1].
  cbn [fst snd] in *. run. rewrite Hdb.
  exists (assign_ids (seed_price_serial (db w)) updates).
  split; [symmetry; eapply Forall2_length; exact Hrows |].
  split; [reflexivity |]. split; [reflexivity |]. split; [reflexivity |].
  apply assign_ids_tick_rows, Hrows.
Qed.




(** The prices written by a tick have two decimal places. *)
Lemma tick_row_places (w : World) (seed : Seed) (row : SeedPrice) :
  tick_row w seed row -> Py.places 2 (sp_price row).
Proof.
  intros (_ & _ & _ & Hprice).
  destruct (Query.latest_price (db w) (seed_id seed));
    destruct Hprice as [wi ->]; apply round_places.
Qed.





(** C7. [update_seed_prices] leaves every row of the seed table as it was,
    the seed's own price included; it only appends rows to the log of price
    observations. *)
Theorem update_seed_prices_keeps_seeds (w : World) :
  seeds (db (snd (update_seed_prices w))) = seeds (db w)
  /\ map seed_price (seeds (db (snd (update_seed_prices w))))
     = map seed_price (seeds (db w))
  /\ users (db (snd (update_seed_prices w))) = users (db w)
  /\ exists rows : list SeedPrice,
       seed_prices (db (snd (update_seed_prices w))) = seed_prices (db w) ++ rows.
Proof.
  destruct (update_seed_prices_run w) as (rows & _ & Hseeds & Husers & Hlog & _).
  split; [exact Hseeds |]. split; [rewrite Hseeds; reflexivity |].
  split; [exact Husers |]. exists rows. exact Hlog.
Qed.

(** *** Market summary *)

Lemma has_observation_latest (d : Db) (seed : Seed) :
  has_observation d seed = false <-> Query.latest_price d (seed_id seed) = None.
Proof.
  rewrite latest_price_none. unfold has_observation, Query.filter_by_seed_id.
  induction (seed_prices d) as [| p l IH]; cbn [existsb filter].
  - tauto.
  - destruct (sp_seed_id p =? seed_id seed); cbn [orb]; [| exact IH].
    split; discriminate.
Qed.



(** The loop of [get_market_summary], from any value of its accumulators. *)
Lemma summary_fold (d : Db) (l : list Seed) :
  forall (tv : Z) (mc : Q) (ss : list SeedSummary),
  exists es : list SeedSummary,
    snd (fold_left (summary_step d) l (tv, mc, ss)) = ss ++ es
    /\ Forall2 (entry_for d) (filter (has_observation d) l) es
    /\ fst (fst (fold_left (summary_step d) l (tv, mc, ss)))
       = tv + fold_right Z.add 0 (map volume es)
    /\ (snd (fst (fold_left (summary_step d) l (tv, mc, ss)))
        == mc + fold_right Qplus 0 (map (fun e => currentPrice e * 1000) es))%Q.
Proof.
  induction l as [| seed l IH]; intros tv mc ss; cbn [fold_left filter].
  - exists []. rewrite app_nil_r. cbn. split; [reflexivity |].
    split; [constructor |]. split; [lia | ring].
  - unfold summary_step at 2 4 6.
    destruct (has_observation d seed) eqn:Hobs.
    + destruct (Query.latest_price d (seed_id seed)) as [latest |] eqn:Hlatest;
        [| apply has_observation_latest in Hlatest; congruence].
      match goal with
      | |- context [fold_left _ l (?tv', ?mc', ss ++ [?e])] =>
          destruct (IH tv' mc' (ss ++ [e])) as (es & Hss & Hes & Htv & Hmc);
          exists (e :: es)
      end.
      rewrite Hss, Htv, Hmc. cbn [map fold_right currentPrice volume].
      split; [rewrite <- app_assoc; reflexivity |].
      split; [| split; [lia | ring]].
      constructor; [| exact Hes].
      exists latest. cbn. unfold previous_value. repeat split; try assumption.
    + apply has_observation_latest in Hobs. rewrite Hobs. apply IH.
Qed.

Lemma get_market_summary_run (w : World) :
  exists (tv : Z) (mc : Q) (es : list SeedSummary),
    get_market_summary w
    = ({| summary_seeds := es;
          marketStats := {| totalVolume := tv; marketCap := mc;
                            seedCount := List.length (seeds (db w)) |} |}, w)
    /\ Forall2 (entry_for (db w)) (filter (has_observation (db w)) (seeds (db w))) es
    /\ tv = fold_right Z.add 0 (map volume es)
    /\ (mc == fold_right Qplus 0 (map (fun e => currentPrice e * 1000) es))%Q.
Proof.
  unfold get_market_summary. run.
  destruct (summary_fold (db w) (seeds (db w)) 0 0%Q []) as (es & Hss & Hes & Htv & Hmc).
  destruct (fold_left _ _ _) as [[tv mc] ss]. cbn [fst snd app] in *.
  exists tv, mc, es. subst ss. split; [reflexivity |].
  split; [exact Hes |]. split; [lia |]. rewrite Hmc. ring.
Qed.




Lemma Forall2_in_right {A B : Type} (R : A -> B -> Prop) (l : list A) (l' : list B) (b : B) :
  Forall2 R l l' -> In b l' -> exists a, In a l /\ R a b.
Proof.
  induction 1 as [| x y l l' Hxy Hrest IH]; intros Hin.
  - destruct Hin.
  - destruct Hin as [-> | Hin].
    + exists x. split; [left; reflexivity | exact Hxy].
    + destruct (IH Hin) as (a & Ha & HR). exists a. split; [right; exact Ha | exact HR].
Qed.

Lemma filter_length_lt {A : Type} (f : A -> bool) (l : list A) (x : A) :
  In x l -> f x = false -> (List.length (filter f l) < List.length l)%nat.
Proof.
  induction l as [| y l IH]; intros Hin Hx; [destruct Hin |].
  cbn [filter List.length].
  pose proof (filter_length_le f l) as Hle.
  destruct Hin as [-> | Hin].
  - rewrite Hx. lia.
  - specialize (IH Hin Hx). destruct (f y); cbn [List.length]; lia.
Qed.


(** C9. In the market summary, [seedCount] is the number of rows of the
    seed table, while the [seeds] array has one entry per seed that has an
    observation, in the order of the table, and [totalVolume] and
    [marketCap] are the sums of the volumes and of [price * 1000] over
    those entries.  A seed without any observation has no entry, so it
    adds nothing to the totals, and its presence makes [seedCount]
    strictly larger than the length of the array. *)
Theorem market_summary_counts (w : World) :
  let summary := fst (get_market_summary w) in
  let stats := marketStats summary in
  let traded := filter (has_observation (db w)) (seeds (db w)) in
  seedCount stats = List.length (seeds (db w))
  /\ Forall2 (entry_for (db w)) traded (summary_seeds summary)
  /\ (forall seed, In seed traded <->
        In seed (seeds (db w))
        /\ exists p, In p (seed_prices (db w)) /\ sp_seed_id p = seed_id seed)
  /\ totalVolume stats = fold_right Z.add 0 (map volume (summary_seeds summary))
  /\ (marketCap stats
      == fold_right Qplus 0 (map (fun e => currentPrice e * 1000) (summary_seeds summary)))%Q
  /\ (forall seed,
        In seed (seeds (db w)) ->
        (forall p, In p (seed_prices (db w)) -> sp_seed_id p <> seed_id seed) ->
        (forall e, In e (summary_seeds summary) -> sum_id e <> seed_id seed)
        /\ (List.length (summary_seeds summary) < seedCount stats)%nat).
Proof.
  intros summary stats traded. subst stats summary.
  destruct (get_market_summary_run w) as (tv & mc & es & Hrun & Hes & Htv & Hmc).
  rewrite Hrun. cbn [fst summary_seeds marketStats seedCount totalVolume marketCap].
  assert (Htraded : forall seed, In seed traded <->
            In seed (seeds (db w))
            /\ exists p, In p (seed_prices (db w)) /\ sp_seed_id p = seed_id seed).
  { intros seed. unfold traded, has_observation. rewrite filter_In, existsb_exists.
    split; intros [H1 (p & H2 & H3)]; (split; [exact H1 | exists p; split; [exact H2 |]]).
    - apply Z.eqb_eq, H3.
    - apply Z.eqb_eq, H3. }
  split; [reflexivity |]. split; [exact Hes |]. split; [exact Htraded |].
  split; [exact Htv |]. split; [exact Hmc |].
  intros seed Hseed Hnone. split.
  - intros e He C.
    destruct (Forall2_in_right _ _ _ _ Hes He) as (seed' & Hseed' & Hentry).
    apply Htraded in Hseed'. destruct Hseed' as (_ & p & Hp & Hpid).
    destruct Hentry as (_ & _ & Hid & _).
    apply (Hnone p Hp). congruence.
  - rewrite <- (Forall2_length Hes). apply filter_length_lt with seed; [exact Hseed |].
    unfold has_observation. destruct (existsb _ _) eqn:E; [| reflexivity].
    apply existsb_exists in E. destruct E as (p & Hp & Hpid).
    apply Z.eqb_eq in Hpid. destruct (Hnone p Hp Hpid).
Qed.

(** *** Registration *)

Lemma user_by_username_found (d : Db) (u : User) :
  In u (users d) -> Query.user_by_username d (user_username u) <> None.
Proof.
  intros Hin C. unfold Query.user_by_username in C.
  pose proof (find_none _ _ C u Hin) as H. cbn in H.
  rewrite String.eqb_refl in H. discriminate.
Qed.

(** C8. A registration request whose username is that of a user already
    stored is answered with status 400 and an error envelope
    [{"error": ...}], and the store, hence the table of users, is left as
    it was. *)
Theorem register_duplicate_username (data : RegisterData) (w : World) (existing : User) :
  In existing (users (db w)) ->
  data_username data = Some (user_username existing) ->
  status (fst (register (Some data) w)) = 400
  /\ (exists msg : string, body (fst (register (Some data) w)) = error_envelope msg)
  /\ users (db (snd (register (Some data) w))) = users (db w)
  /\ db (snd (register (Some data) w)) = db w.
Proof.
  intros Hin Hname. unfold register.
  destruct (negb (Py.truthy_str (data_username data))
            || negb (Py.truthy_str (data_email data))
            || negb (Py.truthy_str (data_password data))).
  - cbn. repeat split. eexists. reflexivity.
  - run. rewrite Hname. cbn [get_default].
    destruct (Query.user_by_username (db w) (user_username existing)) eqn:E;
      [| destruct (user_by_username_found _ _ Hin E)].
    cbn. repeat split. eexists. reflexivity.
Qed.

(** *** Seed update *)

Lemma get_seed_replaced (d : Db) (id : Z) (seed s : Seed) (rows : list SeedPrice) :
  Query.get_seed d id = Some seed -> seed_id s = id ->
  Query.get_seed (insert_prices rows (replace_seed s d)) id = Some s.
Proof.
  unfold Query.get_seed. cbn [insert_prices replace_seed seeds]. intros H Hs.
  rewrite Hs.
  induction (seeds d) as [| y l IH]; [discriminate |].
  cbn [map find] in *.
  destruct (seed_id y =? id) eqn:E.
  - rewrite Hs, Z.eqb_refl. reflexivity.
  - rewrite E. apply IH, H.
Qed.

Lemma json_price_ne_differs (price : JsonPrice) (old : option Q) :
  json_price_ne price old = true <-> price_differs price old.
Proof.
  destruct price as [q | |]; destruct old as [stored |]; cbn; split; intros H;
    try reflexivity; try exact I; try discriminate; try contradiction.
  - intros E. apply Qeq_bool_iff in E. rewrite E in H. discriminate.
  - destruct (Qeq_bool q stored) eqn:E; [| reflexivity].
    apply Qeq_bool_iff in E. destruct (H E).
Qed.

Lemma numeric_refuses (q : Q) : Pg.numeric_10_2 q = None <-> ~ fits_numeric_10_2 q.
Proof.
  rewrite <- numeric_fits. split.
  - intros H [stored C]. congruence.
  - intros H. destruct (Pg.numeric_10_2 q) as [stored |]; [| reflexivity].
    destruct H. exists stored. reflexivity.
Qed.

Lemma fields_written_assigned (data : SeedJson) (seed : Seed) (price : option Q) :
  fields_written data seed
    {| seed_id := seed_id seed;
       seed_name := get_default (json_name data) (seed_name seed);
       seed_species := get_default (json_species data) (seed_species seed);
       seed_quantity := get_default (json_quantity data) (seed_quantity seed);
       seed_price := price;
       seed_description := get_default (json_description data) (seed_description seed) |}.
Proof.
  unfold fields_written. cbn.
  destruct (json_name data), (json_species data), (json_quantity data),
    (json_description data); repeat split.
Qed.

(** What [PUT /seeds/<id>] does to an existing seed, case by case: the
    request brings a new price that the column takes, it brings no new
    price, it brings a new price that the column refuses, or it is not a
    JSON object. *)
Lemma update_seed_request_cases
      (id : Z) (request : RequestJson SeedJson) (w : World) (seed : Seed) :
  Query.get_seed (db w) id = Some seed ->
  let call := update_seed_request id request w in
  (exists (data : SeedJson) (q stored : Q) (updated : Seed),
     request = JsonObject data
     /\ json_price data = Some (PriceNumber q)
     /\ price_differs (PriceNumber q) (seed_price seed)
     /\ Pg.numeric_10_2 q = Some stored
     /\ fields_written data seed updated
     /\ seed_price updated = Some q
     /\ Query.get_seed (db (snd call)) id = Some updated
     /\ status (fst call) = 200
     /\ seed_prices (db (snd call))
        = seed_prices (db w)
          ++ [{| sp_id := Some (seed_price_serial (db w)); sp_seed_id := id;
                 sp_price := stored; sp_volume := seed_quantity updated;
                 sp_recorded_at := now_at (clock_pos w) |}])
  \/ (exists (data : SeedJson) (updated : Seed),
        request = JsonObject data
        /\ (forall price, json_price data = Some price ->
                          ~ price_differs price (seed_price seed))
        /\ fields_written data seed updated
        /\ seed_price updated = seed_price seed
        /\ Query.get_seed (db (snd call)) id = Some updated
        /\ status (fst call) = 200
        /\ seed_prices (db (snd call)) = seed_prices (db w))
  \/ (exists (data : SeedJson) (price : JsonPrice),
        request = JsonObject data
        /\ json_price data = Some price
        /\ price_differs price (seed_price seed)
        /\ match price with
           | PriceNumber q => ~ fits_numeric_10_2 q
           | _ => True
           end
        /\ fst call = internal_server_error
        /\ db (snd call) = db w)
  \/ ((forall data, request <> JsonObject data)
      /\ db (snd call) = db w
      /\ fst call = match request with
                    | NoJson => unsupported_media_type
                    | BadJson => bad_request
                    | _ => internal_server_error
                    end).
Proof.
  intros Hseed call. subst call.
  pose proof (get_seed_some _ _ _ Hseed) as [_ Hid].
  unfold update_seed_request. run. rewrite Hseed.
  destruct request as [| | truthy | data];
    try (right; right; right; split; [intros data; discriminate |];
         split; reflexivity).
  run. cbn [assign_basic_fields seed_price].
  destruct (json_price data) as [price |] eqn:Hprice.
  - pose proof (json_price_ne_differs price (seed_price seed)) as Hiff.
    destruct (json_price_ne price (seed_price seed)) eqn:Hne; run.
    + assert (Hd : price_differs price (seed_price seed)) by (apply Hiff; reflexivity).
      destruct price as [q | |].
      * destruct (Pg.numeric_10_2 q) as [stored |] eqn:Hnum; run.
        -- left. exists data, q, stored. eexists.
           split; [reflexivity |]. split; [exact Hprice |]. split; [exact Hd |].
           split; [exact Hnum |].
           split; [apply (fields_written_assigned data seed (Some q)) |].
           split; [reflexivity |].
           split; [eapply get_seed_replaced; [exact Hseed | exact Hid] |].
           split; [reflexivity |].
           unfold with_id, SeedPrice_new, assign_basic_fields.
           cbn [sp_seed_id sp_price sp_volume sp_recorded_at seed_id seed_quantity].
           rewrite Hid. reflexivity.
        -- right; right; left. exists data, (PriceNumber q).
           split; [reflexivity |]. split; [exact Hprice |]. split; [exact Hd |].
           split; [apply numeric_refuses, Hnum |]. split; reflexivity.
      * right; right; left. exists data, PriceNull.
        split; [reflexivity |]. split; [exact Hprice |]. split; [exact Hd |].
        split; [exact I |]. split; reflexivity.
      * right; right; left. exists data, PriceOther.
        split; [reflexivity |]. split; [exact Hprice |]. split; [exact Hd |].
        split; [exact I |]. split; reflexivity.
    + right; left. exists data. eexists.
      split; [reflexivity |].
      split.
      { intros price' E C. rewrite Hprice in E. injection E as <-.
        apply Hiff in C. congruence. }
      split; [apply (fields_written_assigned data seed (seed_price seed)) |].
      split; [reflexivity |].
      split; [exact (get_seed_replaced (db w) id seed
                       (assign_description (assign_basic_fields seed data) data)
                       [] Hseed Hid) |].
      split; reflexivity.
  - run. right; left. exists data. eexists.
    split; [reflexivity |].
    split; [intros price E; rewrite Hprice in E; discriminate |].
    split; [apply (fields_written_assigned data seed (seed_price seed)) |].
    split; [reflexivity |].
    split; [exact (get_seed_replaced (db w) id seed
                     (assign_description (assign_basic_fields seed data) data)
                     [] Hseed Hid) |].
    split; reflexivity.
Qed.


(* ------------------------------------------------------------------ *)
(** ** Further properties *)

(** The relative change drawn by [calculate_price_change] at the default
    volatility: between 1% and 3% in the direction of the trend. *)
Lemma change_range (r u : Q) :
  (0 <= u <= 1)%Q ->
  let trend := (if Py.gt r (1 # 2) then 1 else - (1))%Q in
  let change := ((u - (1 # 2)) * default_volatility + trend * (2 # 100))%Q in
  if Py.gt r (1 # 2)
  then ((1 # 100) <= change <= (3 # 100))%Q
  else (- (3 # 100) <= change <= - (1 # 100))%Q.
Proof.
  intros Hu trend change. subst change trend. unfold default_volatility.
  destruct (Py.gt r (1 # 2)); split; lra.
Qed.

(** *** Pricing engine *)

Lemma base_price_bounds (w : World) :
  (0 <= random_at (rng_pos w) <= 1)%Q -> (1 <= fst (calculate_base_price w) <= 6)%Q.
Proof.
  intros Hu. unfold calculate_base_price, uniform, random, bind, ret. cbn [fst].
  split.
  - apply Qle_trans with (Py.round 1 2); [discriminate |].
    apply round_mono. lra.
  - apply Qle_trans with (Py.round 6 2); [| discriminate].
    apply round_mono. lra.
Qed.

(** X1. With a draw in [0, 1], [calculate_base_price] is a price between
    1.00 and 6.00 with two decimal places. *)
Theorem calculate_base_price_range (w : World) :
  (0 <= random_at (rng_pos w) <= 1)%Q ->
  (1 <= fst (calculate_base_price w) <= 6)%Q
  /\ Py.places 2 (fst (calculate_base_price w)).
Proof.
  intros Hu. split; [apply base_price_bounds, Hu |].
  unfold calculate_base_price, uniform, random, bind, ret. cbn [fst].
  apply round_places.
Qed.

(** X2. From a previous price between 0.20 and 99,999,999.99, the range
    of the observation column, one step of [calculate_price_change] at the
    default volatility, with a second draw in [0, 1], stays within 3% of
    the previous price, up to one cent. *)
Theorem calculate_price_change_step (p : Q) (w : World) :
  (2 # 10 <= p <= 9999999999 # 100)%Q ->
  (0 <= random_at (S (rng_pos w)) <= 1)%Q ->
  ((97 # 100) * p - (1 # 100)
   <= fst (calculate_price_change p default_volatility w)
   <= (103 # 100) * p + (1 # 100))%Q.
Proof.
  intros [Hp _] Hu.
  pose proof (change_range (random_at (rng_pos w)) _ Hu) as Hc. cbv zeta in Hc.
  unfold calculate_price_change, random, bind, ret. cbn [fst rng_pos next_rng].
  set (change := ((random_at (S (rng_pos w)) - (1 # 2)) * default_volatility
                  + (if Py.gt (random_at (rng_pos w)) (1 # 2) then 1 else - (1)) * (2 # 100))%Q)
    in *.
  assert (Hrange : (- (3 # 100) <= change <= 3 # 100)%Q)
    by (destruct (Py.gt (random_at (rng_pos w)) (1 # 2)); split; lra).
  clearbody change.
  assert (Hx : ((97 # 100) * p <= p + p * change <= (103 # 100) * p)%Q) by (split; nra).
  set (x := (p + p * change)%Q) in *. clearbody x.
  pose proof (round_two_places_close (Py.max (2 # 10) x)) as Hr.
  destruct (max_cases (2 # 10) x) as [[E Hm] | [E Hm]]; rewrite E in *; split; lra.
Qed.

(** X3. From a previous price of at least 0.20 with two decimal places,
    at the default volatility and with a second draw in [0, 1], the trend
    decides the direction: the new price is not below the previous one when
    the first draw exceeds 0.5, and not above it otherwise. *)
Theorem calculate_price_change_direction (p : Q) (w : World) :
  Py.places 2 p ->
  (2 # 10 <= p)%Q ->
  (0 <= random_at (S (rng_pos w)) <= 1)%Q ->
  if Py.gt (random_at (rng_pos w)) (1 # 2)
  then (p <= fst (calculate_price_change p default_volatility w))%Q
  else (fst (calculate_price_change p default_volatility w) <= p)%Q.
Proof.
  intros Hpl Hp Hu.
  pose proof (change_range (random_at (rng_pos w)) _ Hu) as Hc. cbv zeta in Hc.
  pose proof (round_of_places p 2 Hpl) as Hround.
  unfold calculate_price_change, random, bind, ret. cbn [fst rng_pos next_rng].
  set (change := ((random_at (S (rng_pos w)) - (1 # 2)) * default_volatility
                  + (if Py.gt (random_at (rng_pos w)) (1 # 2) then 1 else - (1)) * (2 # 100))%Q)
    in *.
  clearbody change.
  destruct (Py.gt (random_at (rng_pos w)) (1 # 2)).
  - apply Qle_trans with (Py.round p 2); [rewrite Hround; apply Qle_refl |].
    apply round_mono.
    destruct (max_cases (2 # 10) (p + p * change)) as [[E Hm] | [E Hm]]; rewrite E; nra.
  - apply Qle_trans with (Py.round p 2); [| rewrite Hround; apply Qle_refl].
    apply round_mono.
    destruct (max_cases (2 # 10) (p + p * change)) as [[E Hm] | [E Hm]]; rewrite E; nra.
Qed.

(** X4. The floor is reached exactly: at the default volatility and with
    a second draw in [0, 1], a previous price that is zero or negative, and
    a previous price of at most 0.20 under a downward trend, both give
    0.20. *)
Theorem calculate_price_change_at_floor (p : Q) (w : World) :
  (0 <= random_at (S (rng_pos w)) <= 1)%Q ->
  (p <= 0)%Q \/ ((p <= 2 # 10)%Q /\ Py.gt (random_at (rng_pos w)) (1 # 2) = false) ->
  (fst (calculate_price_change p default_volatility w) == 2 # 10)%Q.
Proof.
  intros Hu Hcase.
  pose proof (change_range (random_at (rng_pos w)) _ Hu) as Hc. cbv zeta in Hc.
  unfold calculate_price_change, random, bind, ret. cbn [fst rng_pos next_rng].
  set (change := ((random_at (S (rng_pos w)) - (1 # 2)) * default_volatility
                  + (if Py.gt (random_at (rng_pos w)) (1 # 2) then 1 else - (1)) * (2 # 100))%Q)
    in *.
  clearbody change.
  assert (Hx : (p + p * change <= 2 # 10)%Q).
  { destruct Hcase as [Hneg | [Hsmall Hdown]].
    - destruct (Py.gt (random_at (rng_pos w)) (1 # 2)); nra.
    - rewrite Hdown in Hc. destruct (Qlt_le_dec p 0); nra. }
  destruct (max_cases (2 # 10) (p + p * change)) as [[E _] | [_ Hm]];
    [rewrite E; reflexivity | exfalso; lra].
Qed.

(** *** Price history, beyond the placeholder *)

(** The primary branch of [get_price_history], as one equation. *)
Lemma get_price_history_rows (id : Z) (timeframe : string) (w : World) (seed : Seed) :
  Query.get_seed (db w) id = Some seed ->
  let cutoff := now_at (clock_pos w) - Py.timedelta_days (days_of timeframe) in
  let rows := Query.order_by sp_recorded_at
                (Query.filter_history id cutoff (seed_prices (db w))) in
  rows <> [] ->
  get_price_history id timeframe w
  = (map to_dict rows,
     {| db := db w; rng_pos := rng_pos w; clock_pos := S (clock_pos w) |}).
Proof.
  intros Hseed cutoff rows Hrows. subst rows.
  unfold get_price_history. run. rewrite Hseed. run. fold cutoff.
  destruct (Query.order_by sp_recorded_at
              (Query.filter_history id cutoff (seed_prices (db w)))) as [| r rs];
    [destruct (Hrows eq_refl) | reflexivity].
Qed.

(** The placeholder branch of [get_price_history], with the world it leaves. *)
Lemma get_price_history_heals (id : Z) (timeframe : string) (w : World) (seed : Seed) :
  Query.get_seed (db w) id = Some seed ->
  Query.filter_history id (now_at (clock_pos w) - Py.timedelta_days (days_of timeframe))
    (seed_prices (db w)) = [] ->
  exists (row : SeedPrice) (w1 : World),
    get_price_history id timeframe w = ([to_dict row], w1)
    /\ clock_pos w1 = S (S (clock_pos w))
    /\ seeds (db w1) = seeds (db w)
    /\ users (db w1) = users (db w)
    /\ seed_prices (db w1) = seed_prices (db w) ++ [row]
    /\ sp_seed_id row = id
    /\ sp_recorded_at row = now_at (S (clock_pos w)).
Proof.
  intros Hseed Hnone. unfold get_price_history. run. rewrite Hseed. run.
  rewrite Hnone. cbn [Query.order_by fold_right].
  destruct (Py.truthy (seed_price seed)); unfold calculate_base_price; run;
    (eexists; eexists; split; [reflexivity |]; repeat split).
Qed.

(** X5. Whatever the seed id and the timeframe, [get_price_history] keeps
    the seed and user tables and every observation already recorded; it adds
    at most one observation, which then belongs to the seed asked for and is
    the only element of the result. *)
Theorem get_price_history_frame (id : Z) (timeframe : string) (w : World) :
  let call := get_price_history id timeframe w in
  seeds (db (snd call)) = seeds (db w)
  /\ users (db (snd call)) = users (db w)
  /\ exists added : list SeedPrice,
       seed_prices (db (snd call)) = seed_prices (db w) ++ added
       /\ (List.length added <= 1)%nat
       /\ (forall p, In p added -> sp_seed_id p = id /\ fst call = [to_dict p]).
Proof.
  intros call. subst call.
  destruct (Query.get_seed (db w) id) as [seed |] eqn:Hseed.
  - destruct (Query.filter_history id
                (now_at (clock_pos w) - Py.timedelta_days (days_of timeframe))
                (seed_prices (db w))) as [| r rs] eqn:Hrows.
    + destruct (get_price_history_heals id timeframe w seed Hseed Hrows)
        as (row & w1 & -> & _ & Hseeds & Husers & Hlog & Hid & _).
      cbn [fst snd]. split; [exact Hseeds |]. split; [exact Husers |].
      exists [row]. split; [exact Hlog |]. split; [apply le_n |].
      intros p [<- | []]. split; [exact Hid | reflexivity].
    + rewrite (get_price_history_rows id timeframe w seed Hseed).
      * cbn [fst snd db]. split; [reflexivity |]. split; [reflexivity |].
        exists []. rewrite app_nil_r. split; [reflexivity |]. split; [apply le_0_n |].
        intros p [].
      * rewrite Hrows. intros C. apply order_by_nil in C. discriminate.
  - unfold get_price_history. run. rewrite Hseed. cbn [ret fst snd db].
    split; [reflexivity |]. split; [reflexivity |].
    exists []. rewrite app_nil_r. split; [reflexivity |]. split; [apply le_0_n |].
    intros p [].
Qed.




Lemma filter_history_length_mono (id later earlier : Z) (l : list SeedPrice) :
  earlier <= later ->
  (List.length (Query.filter_history id later l)
   <= List.length (Query.filter_history id earlier l))%nat.
Proof.
  intros H. unfold Query.filter_history.
  induction l as [| q l IH]; [apply le_n |]. cbn [filter].
  destruct (sp_seed_id q =? id); cbn [andb]; [| exact IH].
  destruct (Z.leb_spec later (sp_recorded_at q));
    destruct (Z.leb_spec earlier (sp_recorded_at q)); cbn [List.length]; lia.
Qed.

(** X8. A longer timeframe never hides what a shorter one shows: for an
    existing seed with observations inside the shorter window, every element
    of the result for the shorter window is in the result for the longer
    one, read at the same moment. *)
Theorem get_price_history_windows_nest
        (id : Z) (shorter longer : string) (w : World) (seed : Seed) :
  Query.get_seed (db w) id = Some seed ->
  days_of shorter <= days_of longer ->
  (exists p, In p (seed_prices (db w)) /\ sp_seed_id p = id
             /\ now_at (clock_pos w) - Py.timedelta_days (days_of shorter)
                <= sp_recorded_at p) ->
  (forall j, In j (fst (get_price_history id shorter w)) ->
             In j (fst (get_price_history id longer w)))
  /\ (List.length (fst (get_price_history id shorter w))
      <= List.length (fst (get_price_history id longer w)))%nat
  /\ db (snd (get_price_history id longer w)) = db w.
Proof.
  intros Hseed Hdays [p0 (Hp0 & Hid0 & Hc0)].
  assert (Hsub : forall p,
            In p (Query.filter_history id
                    (now_at (clock_pos w) - Py.timedelta_days (days_of shorter))
                    (seed_prices (db w))) ->
            In p (Query.filter_history id
                    (now_at (clock_pos w) - Py.timedelta_days (days_of longer))
                    (seed_prices (db w)))).
  { intros p. rewrite !filter_history_in. unfold Py.timedelta_days.
    intros (H1 & H2 & H3). split; [exact H1 |]. split; [exact H2 | lia]. }
  assert (Hin0 : In p0 (Query.filter_history id
                          (now_at (clock_pos w) - Py.timedelta_days (days_of shorter))
                          (seed_prices (db w))))
    by (apply filter_history_in; auto).
  rewrite (get_price_history_rows id shorter w seed Hseed);
    [| intros C; apply order_by_nil in C; rewrite C in Hin0; destruct Hin0].
  rewrite (get_price_history_rows id longer w seed Hseed);
    [| intros C; apply order_by_nil in C; apply Hsub in Hin0; rewrite C in Hin0;
       destruct Hin0].
  cbn [fst snd db]. split; [| split; [| reflexivity]].
  - intros j Hj. apply in_map_iff in Hj. destruct Hj as (p & <- & Hp).
    apply in_map. apply order_by_in. apply Hsub. apply order_by_in in Hp. exact Hp.
  - rewrite !length_map, !order_by_length.
    apply filter_history_length_mono. unfold Py.timedelta_days. lia.
Qed.

(** *** Ticks, the summary and the latest price *)




Lemma calculate_price_change_floor (p v : Q) (w : World) :
  (2 # 10 <= fst (calculate_price_change p v w))%Q.
Proof.
  unfold calculate_price_change, random, bind, ret. cbn [fst].
  apply Qle_trans with (inject_Z 20 / Py.pow10 2)%Q; [discriminate |].
  apply round_lower_bound.
  apply Qle_trans with (2 # 10); [discriminate | apply max_ge_left].
Qed.

(** X10. The log keeps its price floor: when every draw lies in [0, 1]
    and every price recorded so far is at least 0.20 with two decimal
    places, the same holds of the log after any number of runs of
    [update_seed_prices]. *)
Theorem run_ticks_price_floor (n : nat) (w : World) :
  (forall k : nat, (0 <= random_at k <= 1)%Q) ->
  Forall (fun p => (2 # 10 <= sp_price p)%Q /\ Py.places 2 (sp_price p))
         (seed_prices (db w)) ->
  Forall (fun p => (2 # 10 <= sp_price p)%Q /\ Py.places 2 (sp_price p))
         (seed_prices (db (snd (run_ticks n w)))).
Proof.
  intros Hdraws. revert w. induction n as [| n IH]; intros w Hlog.
  - exact Hlog.
  - cbn [run_ticks]. unfold bind.
    destruct (update_seed_prices_run w) as (rows & _ & _ & _ & Happ & Hrows).
    destruct (update_seed_prices w) as [count w1]. cbn [fst snd] in *.
    apply IH. rewrite Happ. apply Forall_app. split; [exact Hlog |].
    clear - Hrows Hdraws. induction Hrows as [| seed row l rows Hrow _ IHrows];
      constructor; [| exact IHrows].
    split; [| apply (tick_row_places w seed row Hrow)].
    destruct Hrow as (_ & _ & _ & Hprice).
    destruct (Query.latest_price (db w) (seed_id seed)); destruct Hprice as [wi ->].
    + apply calculate_price_change_floor.
    + apply Qle_trans with 1%Q; [discriminate |].
      apply (base_price_bounds wi (Hdraws _)).
Qed.


(** A seed with an observation has a latest one. *)
Lemma latest_price_found (d : Db) (id : Z) (p0 : SeedPrice) :
  In p0 (seed_prices d) -> sp_seed_id p0 = id ->
  exists latest : SeedPrice,
    Query.latest_price d id = Some latest
    /\ In latest (seed_prices d)
    /\ sp_seed_id latest = id
    /\ forall p, In p (seed_prices d) -> sp_seed_id p = id ->
                 sp_recorded_at p <= sp_recorded_at latest.
Proof.
  intros Hp0 Hid0. destruct (Query.latest_price d id) as [latest |] eqn:E.
  - exists latest. split; [reflexivity |].
    destruct (latest_price_in _ _ _ E) as [Hin Hid].
    split; [exact Hin |]. split; [exact Hid |].
    apply (latest_price_is_latest _ _ _ E).
  - apply latest_price_none in E.
    assert (Hin : In p0 (Query.filter_by_seed_id id (seed_prices d))).
    { unfold Query.filter_by_seed_id. apply filter_In. split; [exact Hp0 |].
      apply Z.eqb_eq, Hid0. }
    rewrite E in Hin. destruct Hin.
Qed.

(** X12. [GET /seeds/<id>/latest-price] answers 404 when the seed is
    missing or has no observation, and otherwise 200 with an observation of
    that seed than which none of the seed's observations is more recent; it
    never writes. *)
Theorem get_seed_latest_price_response (id : Z) (w : World) :
  snd (get_seed_latest_price id w) = w
  /\ ((Query.get_seed (db w) id = None
       \/ (forall p, In p (seed_prices (db w)) -> sp_seed_id p <> id)) ->
      status (fst (get_seed_latest_price id w)) = 404)
  /\ (forall seed p0,
        Query.get_seed (db w) id = Some seed ->
        In p0 (seed_prices (db w)) -> sp_seed_id p0 = id ->
        exists latest : SeedPrice,
          fst (get_seed_latest_price id w) = jsonify (to_dict latest) 200
          /\ In latest (seed_prices (db w))
          /\ sp_seed_id latest = id
          /\ forall p, In p (seed_prices (db w)) -> sp_seed_id p = id ->
                       sp_recorded_at p <= sp_recorded_at latest).
Proof.
  unfold get_seed_latest_price, bind, query, ret. cbn [fst snd].
  split; [| split].
  - destruct (Query.get_seed (db w) id); [| reflexivity].
    destruct (Query.latest_price (db w) id); reflexivity.
  - intros [Hnone | Hnone].
    + rewrite Hnone. reflexivity.
    + destruct (Query.get_seed (db w) id); [| reflexivity].
      destruct (Query.latest_price (db w) id) as [latest |] eqn:E; [| reflexivity].
      apply latest_price_in in E. destruct E as [Hin Hid]. destruct (Hnone _ Hin Hid).
  - intros seed p0 Hseed Hp0 Hid0. rewrite Hseed.
    destruct (latest_price_found (db w) id p0 Hp0 Hid0) as (latest & -> & Hrest).
    exists latest. split; [reflexivity | exact Hrest].
Qed.



(** *** Creating and updating seeds *)

(** [create_seed] on a body that has a name. *)
Lemma create_seed_named (new_id : Z) (data : SeedData) (w : World) (name : string) :
  data_name data = Some name ->
  let call := create_seed new_id data w in
  exists seed : Seed,
    seeds (db (snd call)) = seeds (db w) ++ [seed]
    /\ users (db (snd call)) = users (db w)
    /\ seed_id seed = new_id
    /\ seed_name seed = name
    /\ seed_price seed = data_price data
    /\ seed_quantity seed = match data_quantity data with
                            | Some quantity => quantity
                            | None => 0
                            end
    /\ match data_price data with
       | Some p =>
           ((p == 0)%Q ->
            fst call = jsonify (to_dict seed) 201
            /\ seed_prices (db (snd call)) = seed_prices (db w))
           /\ (~ (p == 0)%Q -> fits_numeric_10_2 p ->
               fst call = jsonify (to_dict seed) 201
               /\ exists row : SeedPrice,
                    seed_prices (db (snd call)) = seed_prices (db w) ++ [row]
                    /\ sp_seed_id row = new_id
                    /\ in_cents p (sp_price row)
                    /\ sp_volume row = seed_quantity seed
                    /\ sp_recorded_at row = now_at (clock_pos w))
           /\ (~ (p == 0)%Q -> ~ fits_numeric_10_2 p ->
               fst call = internal_server_error
               /\ seed_prices (db (snd call)) = seed_prices (db w))
       | None =>
           fst call = jsonify (to_dict seed) 201
           /\ seed_prices (db (snd call)) = seed_prices (db w)
       end.
Proof.
  intros Hname call. subst call. unfold create_seed. rewrite Hname.
  cbn [seed_price seed_id seed_quantity].
  destruct (data_price data) as [p |]; cbn [Py.truthy get_default].
  - destruct (Qeq_bool p 0) eqn:Hzero; cbn [negb]; run.
    + apply Qeq_bool_iff in Hzero.
      eexists. do 5 (split; [reflexivity |]).
      split; [cbn; destruct (data_quantity data); reflexivity |].
      split; [intros _; split; reflexivity |].
      split; intros C; destruct (C Hzero).
    + assert (Hnz : ~ (p == 0)%Q).
      { intros C. apply Qeq_bool_iff in C. congruence. }
      destruct (Pg.numeric_10_2 p) as [price |] eqn:Hnum; run.
      * eexists. do 5 (split; [reflexivity |]).
        split; [cbn; destruct (data_quantity data); reflexivity |].
        split; [intros C; destruct (Hnz C) |].
        split.
        { intros _ _. split; [reflexivity |].
          eexists. split; [reflexivity |]. cbn.
          split; [reflexivity |]. split; [apply numeric_in_cents, Hnum |].
          split; reflexivity. }
        intros _ C. destruct C. apply numeric_fits. exists price. exact Hnum.
      * eexists. do 5 (split; [reflexivity |]).
        split; [cbn; destruct (data_quantity data); reflexivity |].
        split; [intros C; destruct (Hnz C) |].
        split; [| intros _ _; split; reflexivity].
        intros _ C. apply numeric_fits in C. destruct C as [price C]. congruence.
  - run. eexists. do 5 (split; [reflexivity |]).
    split; [cbn; destruct (data_quantity data); reflexivity |]. split; reflexivity.
Qed.

(** X14. [POST /seeds] on a body without [name] answers 500 and writes
    nothing.  With a name it appends one seed carrying the new id, the
    name, the price as given and the quantity, 0 when none is given.  When
    the price is absent or zero it answers 201 and records no observation;
    when the price is not zero and the [NUMERIC(10, 2)] column takes it, it
    answers 201 and records one observation with that price in cents, the
    quantity as volume and the clock reading; when the column refuses the
    price it answers 500, and the seed stays without observation. *)
Theorem create_seed_effect (new_id : Z) (data : SeedData) (w : World) :
  let call := create_seed new_id data w in
  (data_name data = None -> fst call = internal_server_error /\ snd call = w)
  /\ (forall name : string,
        data_name data = Some name ->
        exists seed : Seed,
          seeds (db (snd call)) = seeds (db w) ++ [seed]
          /\ users (db (snd call)) = users (db w)
          /\ seed_id seed = new_id
          /\ seed_name seed = name
          /\ seed_price seed = data_price data
          /\ seed_quantity seed = match data_quantity data with
                                  | Some quantity => quantity
                                  | None => 0
                                  end
          /\ match data_price data with
             | Some p =>
                 ((p == 0)%Q ->
                  fst call = jsonify (to_dict seed) 201
                  /\ seed_prices (db (snd call)) = seed_prices (db w))
                 /\ (~ (p == 0)%Q -> fits_numeric_10_2 p ->
                     fst call = jsonify (to_dict seed) 201
                     /\ exists row : SeedPrice,
                          seed_prices (db (snd call)) = seed_prices (db w) ++ [row]
                          /\ sp_seed_id row = new_id
                          /\ in_cents p (sp_price row)
                          /\ sp_volume row = seed_quantity seed
                          /\ sp_recorded_at row = now_at (clock_pos w))
                 /\ (~ (p == 0)%Q -> ~ fits_numeric_10_2 p ->
                     fst call = internal_server_error
                     /\ seed_prices (db (snd call)) = seed_prices (db w))
             | None =>
                 fst call = jsonify (to_dict seed) 201
                 /\ seed_prices (db (snd call)) = seed_prices (db w)
             end).
Proof.
  intros call. subst call. split.
  - intros Hname. unfold create_seed. rewrite Hname. split; reflexivity.
  - intros name Hname. apply (create_seed_named new_id data w name Hname).
Qed.

Lemma get_seed_app_fresh (d d' : Db) (s : Seed) :
  seeds d' = seeds d ++ [s] ->
  (forall x, In x (seeds d) -> seed_id x <> seed_id s) ->
  Query.get_seed d' (seed_id s) = Some s.
Proof.
  intros Happ Hfresh. unfold Query.get_seed. rewrite Happ. clear Happ.
  revert Hfresh. generalize (seeds d) as l.
  induction l as [| x l IH]; intros Hfresh; cbn [app find].
  - rewrite Z.eqb_refl. reflexivity.
  - destruct (Z.eqb_spec (seed_id x) (seed_id s)) as [E | _].
    + destruct (Hfresh x (or_introl eq_refl) E).
    + apply IH. intros y Hy. apply Hfresh. right. exact Hy.
Qed.

Lemma latest_price_single (d : Db) (id : Z) (row : SeedPrice) :
  Query.filter_by_seed_id id (seed_prices d) = [row] ->
  Query.latest_price d id = Some row.
Proof.
  intros H. unfold Query.latest_price, Query.order_by_desc. rewrite H. reflexivity.
Qed.

Lemma filter_by_seed_id_none (id : Z) (rows : list SeedPrice) :
  (forall p, In p rows -> sp_seed_id p <> id) -> Query.filter_by_seed_id id rows = [].
Proof.
  unfold Query.filter_by_seed_id.
  induction rows as [| p l IH]; intros H; cbn [filter]; [reflexivity |].
  destruct (Z.eqb_spec (sp_seed_id p) id) as [E | _].
  - destruct (H p (or_introl eq_refl) E).
  - apply IH. intros q Hq. apply H. right. exact Hq.
Qed.

(** X15. What is created can be read back: when the new id is carried by
    no seed and by no observation, [GET /seeds/<id>] answers, after a
    [POST /seeds] with a name, 200 with the created seed, and
    [GET /seeds/<id>/latest-price] answers 200 with an observation at the
    seed's price in cents when that price is present, not zero and taken by
    the [NUMERIC(10, 2)] column, and 404 otherwise. *)
Theorem create_seed_then_read (new_id : Z) (data : SeedData) (w : World) (name : string) :
  data_name data = Some name ->
  (forall s, In s (seeds (db w)) -> seed_id s <> new_id) ->
  (forall p, In p (seed_prices (db w)) -> sp_seed_id p <> new_id) ->
  let created := create_seed new_id data w in
  (exists seed : Seed,
     fst (get_seed new_id (snd created)) = jsonify (to_dict seed) 200
     /\ seed_name seed = name
     /\ seed_price seed = data_price data
     /\ (status (fst created) = 201 -> fst created = jsonify (to_dict seed) 201))
  /\ match data_price data with
     | Some p =>
         ((p == 0)%Q -> status (fst (get_seed_latest_price new_id (snd created))) = 404)
         /\ (~ (p == 0)%Q -> fits_numeric_10_2 p ->
             exists row : SeedPrice,
               fst (get_seed_latest_price new_id (snd created))
               = jsonify (to_dict row) 200
               /\ in_cents p (sp_price row))
         /\ (~ (p == 0)%Q -> ~ fits_numeric_10_2 p ->
             status (fst (get_seed_latest_price new_id (snd created))) = 404)
     | None => status (fst (get_seed_latest_price new_id (snd created))) = 404
     end.
Proof.
  intros Hname Hfresh Horphan created. subst created.
  destruct (create_seed_named new_id data w name Hname)
    as (seed & Hseeds & _ & Hid & Hsname & Hsprice & _ & Hlog).
  set (w1 := snd (create_seed new_id data w)) in *.
  assert (Hget : Query.get_seed (db w1) new_id = Some seed).
  { rewrite <- Hid. apply (get_seed_app_fresh (db w)); [exact Hseeds |].
    rewrite Hid. exact Hfresh. }
  pose proof (filter_by_seed_id_none new_id _ Horphan) as Hnone.
  assert (Hmissing : seed_prices (db w1) = seed_prices (db w) ->
                     status (fst (get_seed_latest_price new_id w1)) = 404).
  { intros E. unfold get_seed_latest_price, bind, query, ret. cbn [fst snd].
    rewrite Hget. rewrite (proj2 (latest_price_none (db w1) new_id)); [reflexivity |].
    rewrite E. exact Hnone. }
  split.
  { exists seed. unfold get_seed, bind, query, ret. cbn [fst snd]. rewrite Hget.
    split; [reflexivity |]. split; [exact Hsname |]. split; [exact Hsprice |].
    intros Hst. destruct (data_price data) as [p |].
    - destruct Hlog as (Hzero & Hfit & Hbad).
      destruct (Qeq_dec p 0) as [Z0 | Z0]; [apply Hzero, Z0 |].
      destruct (Pg.numeric_10_2 p) as [price |] eqn:Hnum.
      + apply Hfit; [exact Z0 |]. apply numeric_fits. exists price. exact Hnum.
      + destruct (Hbad Z0 (proj1 (numeric_refuses p) Hnum)) as [C _].
        rewrite C in Hst. discriminate.
    - apply Hlog. }
  destruct (data_price data) as [p |].
  - destruct Hlog as (Hzero & Hfit & Hbad).
    split; [intros Z0; apply Hmissing, (Hzero Z0) |].
    split; [| intros Z0 B; apply Hmissing, (Hbad Z0 B)].
    intros Z0 F. destruct (Hfit Z0 F) as (_ & row & Hrows & Hrid & Hcents & _).
    exists row. unfold get_seed_latest_price, bind, query, ret. cbn [fst snd].
    rewrite Hget. rewrite (latest_price_single (db w1) new_id row); [split; auto |].
    rewrite Hrows. unfold Query.filter_by_seed_id in *. rewrite filter_app, Hnone.
    cbn [filter app]. rewrite Hrid, Z.eqb_refl. reflexivity.
  - apply Hmissing, Hlog.
Qed.

(** X16. [PUT /seeds/<id>] keeps the seed's price and the log in step, up
    to the two places of the observation column: after a request that
    brings a new price that the column takes, made when the clock is ahead
    of every timestamp recorded for the seed, the seed holds the price as
    sent and its latest observation holds that price in cents, so that the
    two are the same number exactly when the price sent has at most two
    decimal places. *)
Theorem update_seed_price_in_step
        (id : Z) (data : SeedJson) (w : World) (seed : Seed) (q : Q) :
  Query.get_seed (db w) id = Some seed ->
  json_price data = Some (PriceNumber q) ->
  price_differs (PriceNumber q) (seed_price seed) ->
  fits_numeric_10_2 q ->
  (forall p, In p (seed_prices (db w)) -> sp_seed_id p = id ->
             sp_recorded_at p < now_at (clock_pos w)) ->
  let after := db (snd (update_seed_request id (JsonObject data) w)) in
  exists (updated : Seed) (latest : SeedPrice),
    Query.get_seed after id = Some updated
    /\ Query.latest_price after id = Some latest
    /\ seed_price updated = Some q
    /\ in_cents q (sp_price latest)
    /\ ((sp_price latest == q)%Q <-> Py.places 2 q).
Proof.
  intros Hseed Hp Hd Hfit Hclock after. subst after.
  pose proof (update_seed_request_cases id (JsonObject data) w seed Hseed) as H.
  cbv zeta in H.
  destruct H
    as [(data' & q' & stored & updated & E & Hp' & _ & Hnum & _ & Hup & Hget & _ & Hlog)
       | [(data' & updated & E & Hkeep & _)
         | [(data' & price & E & Hp' & _ & Hbad & _)
           | (Hno & _)]]].
  - injection E as <-. rewrite Hp in Hp'. injection Hp' as <-.
    set (d1 := db (snd (update_seed_request id (JsonObject data) w))) in *.
    set (row := {| sp_id := Some (seed_price_serial (db w)); sp_seed_id := id;
                   sp_price := stored; sp_volume := seed_quantity updated;
                   sp_recorded_at := now_at (clock_pos w) |}) in *.
    assert (Hrow : In row (seed_prices d1))
      by (rewrite Hlog; apply in_or_app; right; left; reflexivity).
    pose proof (numeric_in_cents q stored Hnum) as Hcents.
    destruct (Query.latest_price d1 id) as [latest |] eqn:L.
    + exists updated, latest. split; [exact Hget |]. split; [reflexivity |].
      split; [exact Hup |].
      pose proof (latest_price_is_latest _ _ _ L row Hrow eq_refl) as Hmax.
      destruct (latest_price_in _ _ _ L) as [Hin Hlid].
      rewrite Hlog in Hin. apply in_app_or in Hin. destruct Hin as [Hold | [<- | []]].
      * specialize (Hclock latest Hold Hlid). cbn [sp_recorded_at row] in Hmax. lia.
      * cbn [sp_price row]. split; [exact Hcents | apply in_cents_same, Hcents].
    + apply latest_price_none in L.
      assert (Hin : In row (Query.filter_by_seed_id id (seed_prices d1))).
      { unfold Query.filter_by_seed_id. apply filter_In. split; [exact Hrow |].
        apply Z.eqb_eq. reflexivity. }
      rewrite L in Hin. destruct Hin.
  - injection E as <-. destruct (Hkeep _ Hp Hd).
  - injection E as <-. rewrite Hp in Hp'. injection Hp' as <-. destruct (Hbad Hfit).
  - destruct (Hno data eq_refl).
Qed.



(** *** The unfiltered history route *)


(** X18. [GET /price-history/<seed_id>] never writes.  It answers 404
    with an error envelope for an id that no seed carries, and otherwise 200
    with one [{date, price}] object per observation of the seed, whatever
    its age, in non-decreasing order of the recorded timestamp. *)
Theorem get_seed_price_history_response (id : Z) (w : World) :
  let call := get_seed_price_history id w in
  snd call = w
  /\ (Query.get_seed (db w) id = None ->
      fst call = jsonify (error_envelope "Seed not found") 404)
  /\ (Query.get_seed (db w) id <> None ->
      exists rows : list SeedPrice,
        fst call
        = jsonify (JArr (map (fun p =>
                                JObj [("date", JStr (strftime_date lib (sp_recorded_at p)));
                                      ("price", JNum (sp_price p))]%string) rows)) 200
        /\ Permutation rows (filter (fun p => sp_seed_id p =? id) (seed_prices (db w)))
        /\ List.length rows = observations_of (db w) id
        /\ StronglySorted (fun a b => sp_recorded_at a <= sp_recorded_at b) rows).
Proof.
  intros call. subst call. unfold get_seed_price_history, bind, query, ret.
  cbn [fst snd]. destruct (Query.get_seed (db w) id) as [seed |].
  - split; [reflexivity |]. split; [discriminate |]. intros _.
    exists (Query.order_by sp_recorded_at (Query.filter_by_seed_id id (seed_prices (db w)))).
    split; [reflexivity |]. split; [apply order_by_perm |].
    split; [apply order_by_length |].
    apply (order_by_strongly_sorted sp_recorded_at).
  - split; [reflexivity |]. split; [reflexivity |]. intros C. destruct (C eq_refl).
Qed.


(** *** Registration and login *)

Lemma truthy_str_blank (field : option string) :
  Py.truthy_str field = false <-> blank field.
Proof.
  unfold blank. destruct field as [[| c s] |]; cbn; split; intros H;
    try reflexivity; try discriminate; auto.
  destruct H; discriminate.
Qed.

Lemma truthy_str_some (field : option string) :
  Py.truthy_str field = true -> exists s, field = Some s /\ get_default field ""%string = s.
Proof.
  destruct field as [s |]; [| discriminate]. intros _. exists s. split; reflexivity.
Qed.

(** X20. A registration that brings no usable username, email or
    password is refused and writes nothing.  It is answered 400 with the
    envelope "Username, email, and password are required" when the body is
    a JSON object in which one of the three is missing or empty, whatever
    the other fields, or a JSON value that Python takes for false; and 500
    with the envelope "An unexpected error occurred during registration"
    when the request does not announce JSON, when its body does not parse,
    or when the body is another JSON value that is not an object. *)
Theorem register_missing_field (request : RequestJson RegisterData) (w : World) :
  match request with
  | JsonObject d => blank (data_username d) \/ blank (data_email d) \/ blank (data_password d)
  | _ => True
  end ->
  register_request request w
  = (match request with
     | JsonObject _ | JsonValue false =>
         jsonify (error_envelope "Username, email, and password are required") 400
     | _ => jsonify (error_envelope "An unexpected error occurred during registration") 500
     end, w).
Proof.
  destruct request as [| | [|] | d]; try reflexivity.
  intros H. unfold register_request, register.
  assert (E : negb (Py.truthy_str (data_username d))
              || negb (Py.truthy_str (data_email d))
              || negb (Py.truthy_str (data_password d)) = true).
  { destruct H as [H | [H | H]]; apply truthy_str_blank in H; rewrite H;
      cbn [negb orb]; rewrite ?orb_true_r; reflexivity. }
  rewrite E. reflexivity.
Qed.

Lemma user_by_email_found (d : Db) (u : User) :
  In u (users d) -> Query.user_by_email d (user_email u) <> None.
Proof.
  intros Hin C. unfold Query.user_by_email in C.
  pose proof (find_none _ _ C u Hin) as H. cbn in H.
  rewrite String.eqb_refl in H. discriminate.
Qed.

Lemma user_by_username_none (d : Db) (name : string) :
  (forall u, In u (users d) -> user_username u <> name) ->
  Query.user_by_username d name = None.
Proof.
  intros H. unfold Query.user_by_username.
  destruct (find _ _) as [u |] eqn:E; [| reflexivity].
  apply find_some in E. destruct E as [Hin Heq]. apply String.eqb_eq in Heq.
  destruct (H u Hin Heq).
Qed.

Lemma user_by_email_none (d : Db) (email : string) :
  (forall u, In u (users d) -> user_email u <> email) ->
  Query.user_by_email d email = None.
Proof.
  intros H. unfold Query.user_by_email.
  destruct (find _ _) as [u |] eqn:E; [| reflexivity].
  apply find_some in E. destruct E as [Hin Heq]. apply String.eqb_eq in Heq.
  destruct (H u Hin Heq).
Qed.

(** X21. A registration with all three fields and a username not yet
    taken, but with the email of a user already stored, is answered 400 with
    the envelope "Email already exists"; nothing is written. *)
Theorem register_duplicate_email
        (data : RegisterData) (w : World) (username password : string) (existing : User) :
  data_username data = Some username -> username <> ""%string ->
  data_password data = Some password -> password <> ""%string ->
  data_email data = Some (user_email existing) -> user_email existing <> ""%string ->
  In existing (users (db w)) ->
  (forall u, In u (users (db w)) -> user_username u <> username) ->
  register (Some data) w = (jsonify (error_envelope "Email already exists") 400, w).
Proof.
  intros Hu Hu' Hp Hp' He He' Hin Hfree. unfold register.
  rewrite Hu, Hp, He.
  destruct username as [| c1 s1]; [destruct (Hu' eq_refl) |].
  destruct password as [| c2 s2]; [destruct (Hp' eq_refl) |].
  destruct (user_email existing) as [| c3 s3] eqn:Hmail; [destruct (He' eq_refl) |].
  cbn [Py.truthy_str negb orb get_default]. run.
  rewrite (user_by_username_none _ _ Hfree). run.
  destruct (Query.user_by_email (db w) (String c3 s3)) as [u |] eqn:E; [reflexivity |].
  rewrite <- Hmail in E. destruct (user_by_email_found _ _ Hin E).
Qed.

(** A registration that goes through, as one equation. *)
Lemma register_success_run
      (data : RegisterData) (w : World) (username email password : string) :
  data_username data = Some username -> username <> ""%string ->
  data_email data = Some email -> email <> ""%string ->
  data_password data = Some password -> password <> ""%string ->
  (forall u, In u (users (db w)) -> user_username u <> username) ->
  (forall u, In u (users (db w)) -> user_email u <> email) ->
  let new_user :=
    {| user_id := Some (user_serial (db w));
       user_username := username;
       user_email := email;
       user_password_hash := generate_password_hash password;
       user_first_name := get_default (data_first_name data) ""%string;
       user_last_name := get_default (data_last_name data) ""%string;
       user_last_login := None |} in
  register (Some data) w
  = (jsonify (JObj [("message", JStr "User registered successfully");
                    ("user", to_dict new_user)]%string) 201,
     {| db := {| seeds := seeds (db w);
                 seed_prices := seed_prices (db w);
                 users := users (db w) ++ [new_user];
                 seed_price_serial := seed_price_serial (db w);
                 user_serial := user_serial (db w) + 1 |};
        rng_pos := rng_pos w; clock_pos := clock_pos w |}).
Proof.
  intros Hu Hu' He He' Hp Hp' Hfree Hmail new_user. subst new_user. unfold register.
  rewrite Hu, Hp, He.
  destruct username as [| c1 s1]; [destruct (Hu' eq_refl) |].
  destruct password as [| c2 s2]; [destruct (Hp' eq_refl) |].
  destruct email as [| c3 s3]; [destruct (He' eq_refl) |].
  cbn [Py.truthy_str negb orb get_default]. run.
  rewrite (user_by_username_none _ _ Hfree). run.
  rewrite (user_by_email_none _ _ Hmail). reflexivity.
Qed.

Lemma find_app_last {A : Type} (f : A -> bool) (l : list A) (x : A) :
  find f l = None -> f x = true -> find f (l ++ [x]) = Some x.
Proof.
  intros Hnone Hx. induction l as [| y l IH]; cbn [app find] in *.
  - rewrite Hx. reflexivity.
  - destruct (f y); [discriminate | apply IH, Hnone].
Qed.

(** The user that a registration appends, and where to find it. *)
Lemma register_success_user
      (data : RegisterData) (w : World) (username email password : string) :
  data_username data = Some username -> username <> ""%string ->
  data_email data = Some email -> email <> ""%string ->
  data_password data = Some password -> password <> ""%string ->
  (forall u, In u (users (db w)) -> user_username u <> username) ->
  (forall u, In u (users (db w)) -> user_email u <> email) ->
  let call := register (Some data) w in
  status (fst call) = 201
  /\ exists new_user : User,
       users (db (snd call)) = users (db w) ++ [new_user]
       /\ user_username new_user = username
       /\ user_email new_user = email
       /\ user_password_hash new_user = generate_password_hash password
       /\ user_id new_user = Some (user_serial (db w))
       /\ user_last_login new_user = None
       /\ Query.user_by_username (db (snd call)) username = Some new_user.
Proof.
  intros Hu Hu' He He' Hp Hp' Hfree Hmail call. subst call.
  rewrite (register_success_run data w username email password
             Hu Hu' He He' Hp Hp' Hfree Hmail).
  cbn [fst snd status jsonify db users].
  split; [reflexivity |]. eexists. split; [reflexivity |].
  do 5 (split; [reflexivity |]).
  unfold Query.user_by_username. cbn [users].
  apply find_app_last; [apply (user_by_username_none _ _ Hfree) |].
  cbn [user_username]. apply String.eqb_refl.
Qed.

(** X22. A registration with a non-empty username, email and password,
    none of which clashes with a stored user, is answered 201 and appends
    exactly one user: it carries the username and the email, the hash of the
    password instead of the password, the next id and no last login, and a
    query by that username finds it from then on. *)
Theorem register_creates_user
        (data : RegisterData) (w : World) (username email password : string) :
  data_username data = Some username -> username <> ""%string ->
  data_email data = Some email -> email <> ""%string ->
  data_password data = Some password -> password <> ""%string ->
  (forall u, In u (users (db w)) -> user_username u <> username) ->
  (forall u, In u (users (db w)) -> user_email u <> email) ->
  let call := register (Some data) w in
  status (fst call) = 201
  /\ (exists new_user : User,
        users (db (snd call)) = users (db w) ++ [new_user]
        /\ user_username new_user = username
        /\ user_email new_user = email
        /\ user_password_hash new_user = generate_password_hash password
        /\ user_id new_user = Some (user_serial (db w))
        /\ user_last_login new_user = None
        /\ Query.user_by_username (db (snd call)) username = Some new_user)
  /\ seeds (db (snd call)) = seeds (db w)
  /\ seed_prices (db (snd call)) = seed_prices (db w).
Proof.
  intros Hu Hu' He He' Hp Hp' Hfree Hmail call. subst call.
  destruct (register_success_user data w username email password
              Hu Hu' He He' Hp Hp' Hfree Hmail) as (Hstatus & Huser).
  split; [exact Hstatus |]. split; [exact Huser |].
  rewrite (register_success_run data w username email password
             Hu Hu' He He' Hp Hp' Hfree Hmail).
  split; reflexivity.
Qed.

(** X23. Registering twice with the same body creates one user: after a
    registration that went through, the same request is answered 400 and
    leaves the store as the first one left it. *)
Theorem register_twice
        (data : RegisterData) (w : World) (username email password : string) :
  data_username data = Some username -> username <> ""%string ->
  data_email data = Some email -> email <> ""%string ->
  data_password data = Some password -> password <> ""%string ->
  (forall u, In u (users (db w)) -> user_username u <> username) ->
  (forall u, In u (users (db w)) -> user_email u <> email) ->
  let first_call := register (Some data) w in
  let second_call := register (Some data) (snd first_call) in
  status (fst first_call) = 201
  /\ fst second_call = jsonify (error_envelope "Username already exists") 400
  /\ snd second_call = snd first_call
  /\ List.length (users (db (snd second_call))) = S (List.length (users (db w))).
Proof.
  intros Hu Hu' He He' Hp Hp' Hfree Hmail first_call second_call.
  subst second_call first_call.
  rewrite (register_success_run data w username email password
             Hu Hu' He He' Hp Hp' Hfree Hmail).
  cbn [fst snd status jsonify]. split; [reflexivity |].
  match goal with
  | |- context [register (Some data) ?w1] =>
      assert (Hsecond : register (Some data) w1
                        = (jsonify (error_envelope "Username already exists") 400, w1))
  end.
  { unfold register. rewrite Hu, Hp, He.
    destruct username as [| c1 s1]; [destruct (Hu' eq_refl) |].
    destruct password as [| c2 s2]; [destruct (Hp' eq_refl) |].
    destruct email as [| c3 s3]; [destruct (He' eq_refl) |].
    cbn [Py.truthy_str negb orb get_default]. run.
    unfold Query.user_by_username. cbn [users].
    rewrite (find_app_last _ (users (db w)) _ (user_by_username_none _ _ Hfree));
      [reflexivity | cbn [user_username]; apply String.eqb_refl]. }
  rewrite Hsecond. cbn [fst snd db users]. split; [reflexivity |]. split; [reflexivity |].
  rewrite length_app. cbn [List.length]. lia.
Qed.

(** X24. [POST /login] hands out tokens only after the password check:
    it answers 200 only when the body is a JSON object that names a stored
    user whose hash the password passes.  Every other answer writes
    nothing; it is an error envelope with status 400 or 401 when the body
    is a JSON object or a value that Python takes for false, and
    [werkzeug]'s own 415, 400 or 500 when the request does not announce
    JSON, when its body does not parse, or when the body is another value
    that is not an object. *)
Theorem login_outcomes (request : RequestJson RegisterData) (w : World) :
  let call := login_request request w in
  (status (fst call) = 200
   /\ exists d username password user,
        request = JsonObject d
        /\ data_username d = Some username
        /\ data_password d = Some password
        /\ Query.user_by_username (db w) username = Some user
        /\ check_password_hash lib (user_password_hash user) password = true)
  \/ (status (fst call) <> 200
      /\ snd call = w
      /\ match request with
         | NoJson => fst call = unsupported_media_type
         | BadJson => fst call = bad_request
         | JsonValue true => fst call = internal_server_error
         | JsonValue false | JsonObject _ =>
             (status (fst call) = 400 \/ status (fst call) = 401)
             /\ exists msg : string, body (fst call) = error_envelope msg
         end).
Proof.
  intros call. subst call.
  destruct request as [| | [|] | d];
    try (right; split; [discriminate |]; split; reflexivity).
  { right. split; [discriminate |]. split; [reflexivity |].
    split; [left; reflexivity | eexists; reflexivity]. }
  unfold login_request, login.
  destruct (Py.truthy_str (data_username d)) eqn:Hu; cbn [negb orb];
    [| right; split; [discriminate |]; split; [reflexivity |];
       split; [left; reflexivity | eexists; reflexivity]].
  destruct (Py.truthy_str (data_password d)) eqn:Hp; cbn [negb];
    [| right; split; [discriminate |]; split; [reflexivity |];
       split; [left; reflexivity | eexists; reflexivity]].
  run.
  destruct (truthy_str_some _ Hu) as (username & Hname & Hgetu).
  destruct (truthy_str_some _ Hp) as (password & Hpw & Hgetp).
  rewrite Hgetu, Hgetp.
  destruct (Query.user_by_username (db w) username) as [user |] eqn:Huser;
    [| right; split; [discriminate |]; split; [reflexivity |];
       split; [right; reflexivity | eexists; reflexivity]].
  destruct (check_password_hash lib (user_password_hash user) password) eqn:Hcheck;
    cbn [negb];
    [| right; split; [discriminate |]; split; [reflexivity |];
       split; [right; reflexivity | eexists; reflexivity]].
  left. run. split; [reflexivity |].
  exists d, username, password, user. repeat split; assumption.
Qed.

(** X25. A login with the username of a stored user and a password that
    its hash rejects is answered 401 with the envelope "Invalid username or
    password"; no token is issued and nothing is written, the last login
    included. *)
Theorem login_wrong_password
        (data : RegisterData) (w : World) (username password : string) (user : User) :
  data_username data = Some username -> username <> ""%string ->
  data_password data = Some password -> password <> ""%string ->
  Query.user_by_username (db w) username = Some user ->
  check_password_hash lib (user_password_hash user) password = false ->
  login (Some data) w
  = (jsonify (error_envelope "Invalid username or password") 401, w).
Proof.
  intros Hu Hu' Hp Hp' Huser Hcheck. unfold login. rewrite Hu, Hp.
  destruct username as [| c1 s1]; [destruct (Hu' eq_refl) |].
  destruct password as [| c2 s2]; [destruct (Hp' eq_refl) |].
  cbn [Py.truthy_str negb orb get_default]. run.
  rewrite Huser, Hcheck. reflexivity.
Qed.

Lemma replace_first_map {A B : Type} (f : A -> bool) (g : A -> B) (new old : A) (l : list A) :
  find f l = Some old -> g new = g old ->
  map g (replace_first f new l) = map g l.
Proof.
  intros Hfind Hg. induction l as [| x l IH]; cbn [replace_first find map] in *;
    [reflexivity |].
  destruct (f x).
  - injection Hfind as ->. cbn [map]. rewrite Hg. reflexivity.
  - cbn [map]. rewrite (IH Hfind). reflexivity.
Qed.

Lemma find_replace_first {A : Type} (f : A -> bool) (new old : A) (l : list A) :
  find f l = Some old -> f new = true -> find f (replace_first f new l) = Some new.
Proof.
  intros Hfind Hnew. induction l as [| x l IH]; cbn [replace_first find] in *;
    [discriminate |].
  destruct (f x) eqn:E.
  - cbn [find]. rewrite Hnew. reflexivity.
  - cbn [find]. rewrite E. apply IH, Hfind.
Qed.

(** A login that passes the password check, as one equation. *)
Lemma login_success_run
      (data : RegisterData) (w : World) (username password : string) (user : User) :
  data_username data = Some username -> username <> ""%string ->
  data_password data = Some password -> password <> ""%string ->
  Query.user_by_username (db w) username = Some user ->
  check_password_hash lib (user_password_hash user) password = true ->
  login (Some data) w
  = (jsonify (JObj [("access_token", JStr (create_access_token lib (user_id user)));
                    ("refresh_token", JStr (create_refresh_token lib (user_id user)));
                    ("user", to_dict (set_last_login user (now_at (clock_pos w))))]%string)
             200,
     {| db := update_user username (set_last_login user (now_at (clock_pos w))) (db w);
        rng_pos := rng_pos w; clock_pos := S (clock_pos w) |}).
Proof.
  intros Hu Hu' Hp Hp' Huser Hcheck. unfold login. rewrite Hu, Hp.
  destruct username as [| c1 s1]; [destruct (Hu' eq_refl) |].
  destruct password as [| c2 s2]; [destruct (Hp' eq_refl) |].
  cbn [Py.truthy_str negb orb get_default]. run.
  rewrite Huser, Hcheck. reflexivity.
Qed.

(** X26. A login that passes the password check is answered 200 with an
    access and a refresh token made for the user's id.  It stamps the clock
    reading on that user as the last login and changes nothing else: the
    usernames, emails, hashes and ids of the users, the seeds and the
    observations stay as they were. *)
Theorem login_success
        (data : RegisterData) (w : World) (username password : string) (user : User) :
  data_username data = Some username -> username <> ""%string ->
  data_password data = Some password -> password <> ""%string ->
  Query.user_by_username (db w) username = Some user ->
  check_password_hash lib (user_password_hash user) password = true ->
  let call := login (Some data) w in
  fst call
  = jsonify (JObj [("access_token", JStr (create_access_token lib (user_id user)));
                   ("refresh_token", JStr (create_refresh_token lib (user_id user)));
                   ("user", to_dict (set_last_login user (now_at (clock_pos w))))]%string)
            200
  /\ Query.user_by_username (db (snd call)) username
     = Some (set_last_login user (now_at (clock_pos w)))
  /\ map user_username (users (db (snd call))) = map user_username (users (db w))
  /\ map user_email (users (db (snd call))) = map user_email (users (db w))
  /\ map user_password_hash (users (db (snd call)))
     = map user_password_hash (users (db w))
  /\ map user_id (users (db (snd call))) = map user_id (users (db w))
  /\ seeds (db (snd call)) = seeds (db w)
  /\ seed_prices (db (snd call)) = seed_prices (db w).
Proof.
  intros Hu Hu' Hp Hp' Huser Hcheck call. subst call.
  rewrite (login_success_run data w username password user Hu Hu' Hp Hp' Huser Hcheck).
  unfold update_user. cbn [fst snd db users seeds seed_prices].
  pose proof Huser as Hname. unfold Query.user_by_username in Hname.
  apply find_some in Hname. destruct Hname as [_ Hname].
  split; [reflexivity |].
  split; [unfold Query.user_by_username; cbn [users];
          apply (find_replace_first _ _ user); [exact Huser | exact Hname] |].
  do 4 (split; [apply (replace_first_map _ _ _ user); [exact Huser | reflexivity] |]).
  split; reflexivity.
Qed.

(** X27. Registration and login fit together: when the hash check
    accepts the hash made from a password, a user who has just registered
    logs in with the same username and password, and the tokens are made
    for the id that the registration assigned. *)
Theorem register_then_login
        (data : RegisterData) (w : World) (username email password : string) :
  data_username data = Some username -> username <> ""%string ->
  data_email data = Some email -> email <> ""%string ->
  data_password data = Some password -> password <> ""%string ->
  (forall u, In u (users (db w)) -> user_username u <> username) ->
  (forall u, In u (users (db w)) -> user_email u <> email) ->
  check_password_hash lib (generate_password_hash password) password = true ->
  let registered := snd (register (Some data) w) in
  status (fst (login (Some data) registered)) = 200
  /\ exists user_json : json,
       body (fst (login (Some data) registered))
       = JObj [("access_token",
                JStr (create_access_token lib (Some (user_serial (db w)))));
               ("refresh_token",
                JStr (create_refresh_token lib (Some (user_serial (db w)))));
               ("user", user_json)]%string.
Proof.
  intros Hu Hu' He He' Hp Hp' Hfree Hmail Hhash registered. subst registered.
  destruct (register_success_user data w username email password
              Hu Hu' He He' Hp Hp' Hfree Hmail)
    as (_ & new_user & _ & _ & _ & Hpw & Hid & _ & Hfind).
  set (w1 := snd (register (Some data) w)) in *.
  assert (Hcheck : check_password_hash lib (user_password_hash new_user) password = true)
    by (rewrite Hpw; exact Hhash).
  rewrite (login_success_run data w1 username password new_user
             Hu Hu' Hp Hp' Hfind Hcheck), Hid.
  cbn [fst status body jsonify]. split; [reflexivity |].
  eexists. reflexivity.
Qed.

(** *** Token-bearing routes *)

Lemma user_by_id_none (d : Db) (identity : option Z) :
  (forall u, In u (users d) -> user_id u <> identity) -> user_by_id d identity = None.
Proof.
  intros H. unfold user_by_id. destruct identity as [id |]; [| reflexivity].
  destruct (find _ _) as [u |] eqn:E; [| reflexivity].
  apply find_some in E. destruct E as [Hin Heq].
  destruct (user_id u) as [id' |] eqn:Hid; [| discriminate].
  apply Z.eqb_eq in Heq. subst id'. destruct (H u Hin Hid).
Qed.

(** X28. A token can outlive what it names: for an identity that no
    stored user carries, [GET /me] and [POST /refresh] both answer 404 with
    the envelope "User not found"; no access token is issued and nothing is
    written. *)
Theorem session_routes_unknown_identity (identity : option Z) (w : World) :
  (forall u, In u (users (db w)) -> user_id u <> identity) ->
  get_user_info identity w = (jsonify (error_envelope "User not found") 404, w)
  /\ refresh identity w = (jsonify (error_envelope "User not found") 404, w).
Proof.
  intros H. unfold get_user_info, refresh, bind, query, ret.
  rewrite (user_by_id_none _ _ H). split; reflexivity.
Qed.

(** X29. The id given at registration opens the session routes: when no
    stored user carries the next id, then after a registration that went
    through, [GET /me] for that id answers 200 with the new user and
    [POST /refresh] answers 200 with an access token made for that id and
    the same user; neither writes. *)
Theorem session_routes_after_register
        (data : RegisterData) (w : World) (username email password : string) :
  data_username data = Some username -> username <> ""%string ->
  data_email data = Some email -> email <> ""%string ->
  data_password data = Some password -> password <> ""%string ->
  (forall u, In u (users (db w)) -> user_username u <> username) ->
  (forall u, In u (users (db w)) -> user_email u <> email) ->
  (forall u, In u (users (db w)) -> user_id u <> Some (user_serial (db w))) ->
  let registered := snd (register (Some data) w) in
  let identity := Some (user_serial (db w)) in
  exists new_user : User,
    Query.user_by_username (db registered) username = Some new_user
    /\ get_user_info identity registered = (jsonify (to_dict new_user) 200, registered)
    /\ refresh identity registered
       = (jsonify (JObj [("access_token", JStr (create_access_token lib identity));
                         ("user", to_dict new_user)]%string) 200, registered).
Proof.
  intros Hu Hu' He He' Hp Hp' Hfree Hmail Hids registered identity.
  subst registered identity.
  destruct (register_success_user data w username email password
              Hu Hu' He He' Hp Hp' Hfree Hmail)
    as (_ & new_user & Husers & _ & _ & _ & Hid & _ & Hfind).
  set (w1 := snd (register (Some data) w)) in *.
  exists new_user. split; [exact Hfind |].
  assert (Hget : user_by_id (db w1) (Some (user_serial (db w))) = Some new_user).
  { unfold user_by_id. rewrite Husers. apply find_app_last.
    - apply (user_by_id_none (db w) (Some (user_serial (db w))) Hids).
    - rewrite Hid. apply Z.eqb_refl. }
  unfold get_user_info, refresh, bind, query, ret. rewrite Hget. split; reflexivity.
Qed.


End Service.

(* ------------------------------------------------------------------ *)
(** ** The theorems at the sample data *)

Module Run.

Import Sample.

Lemma calculate_price_change_binary64_floor_and_rounding_witness :
  exists q : Q,
    fst (calculate_price_change_binary64 random_at 1 (2 # 100) (start db_fresh))
    = Float64.Finite q
    /\ (2 # 10 <= q)%Q.
Proof.
  destruct (calculate_price_change_binary64_floor_and_rounding
              random_at 1 (2 # 100) (start db_fresh))
    as (_ & _ & cents & q & Hq & Hfloor & _).
  - split; [reflexivity | apply Qle_bool_iff; vm_compute; reflexivity].
  - split; discriminate.
  - split; [discriminate | reflexivity].
  - exists q. split; assumption.
Defined.

(** Where the binary64 step and the step over exact rationals part: from
    1.00 and from 7.00, with the draws 0.75 and 0.25, [p + p * change] is
    the float just below 1.015 and the float just above 7.105, and Python
    returns 1.01 and 7.11; over the rationals both are ties, which round
    to the even cents 1.02 and 7.10. *)
Example binary64_ties :
  fst (calculate_price_change_binary64 random_at 1 (2 # 100) (start db_fresh))
  = Float64.of_Q (101 # 100)
  /\ fst (calculate_price_change_binary64 random_at 7 (2 # 100) (start db_fresh))
     = Float64.of_Q (711 # 100)
  /\ fst (calculate_price_change random_at 1 (2 # 100) (start db_fresh)) = (102 # 100)%Q
  /\ fst (calculate_price_change random_at 7 (2 # 100) (start db_fresh)) = (710 # 100)%Q.
Proof. repeat split; vm_compute; reflexivity. Qed.

(** C2, as stated, at the largest finite float as previous price, with the
    draws 0.75 and 0.25: [p + p * change] overflows, and what is returned
    is the infinity, which is not a number of cents. *)
Lemma price_change_overflows :
  (0 < max_float)%Q
  /\ Float64.of_Q max_float = Float64.Finite max_float
  /\ fst (calculate_price_change_binary64 random_at max_float (2 # 100) (start db_fresh))
     = Float64.Infinity false.
Proof.
  split; [reflexivity |]. split; vm_compute; reflexivity.
Defined.

Lemma get_price_history_window_witness :
  exists rows : list SeedPrice,
    fst (get_price_history random_at randbits_at now_at (Model_SeedPrice := SeedPrice_json)
           1 "1w"%string (start db_traded))
    = map (to_dict (Model := SeedPrice_json)) rows
    /\ StronglySorted (fun a b => sp_recorded_at a <= sp_recorded_at b) rows.
Proof.
  destruct (get_price_history_window random_at randbits_at now_at
              (Model_SeedPrice := SeedPrice_json) 1 "1w"%string (start db_traded) tomato)
    as (_ & rows & Hres & _ & _ & _ & Hsorted).
  - reflexivity.
  - exists (obs 1 1 (5 # 2) 100 1699999999000000).
    split; [left; reflexivity |]. split; [reflexivity |]. vm_compute. discriminate.
  - exists rows. split; [exact Hres | exact Hsorted].
Defined.



Lemma get_seed_prices_unknown_seed_witness :
  fst (get_seed_prices random_at randbits_at now_at (Model_SeedPrice := SeedPrice_json)
         7 None (start db_traded))
  = {| body := JArr []; status := 200 |}.
Proof.
  apply (get_seed_prices_unknown_seed random_at randbits_at now_at
           (Model_SeedPrice := SeedPrice_json) 7 "1w"%string None (start db_traded)).
  intros s [<- | [<- | []]]; discriminate.
Defined.



Lemma market_summary_counts_witness :
  In clover (seeds db_traded)
  /\ (List.length (summary_seeds (fst (get_market_summary (start db_traded))))
      < seedCount (marketStats (fst (get_market_summary (start db_traded)))))%nat.
Proof.
  assert (Hin : In clover (seeds (db (start db_traded)))) by (right; left; reflexivity).
  split; [exact Hin |].
  destruct (market_summary_counts (start db_traded)) as (_ & _ & _ & _ & _ & Hseed).
  apply (Hseed clover Hin).
  intros p [<- | [<- | [<- | []]]]; discriminate.
Defined.

Lemma register_duplicate_username_witness :
  In alice (users db_fresh)
  /\ status (fst (register generate_password_hash (Model_User := User_json)
                    (Some duplicate_alice) (start db_fresh))) = 400
  /\ users (db (snd (register generate_password_hash (Model_User := User_json)
                       (Some duplicate_alice) (start db_fresh)))) = users db_fresh.
Proof.
  assert (Hin : In alice (users (db (start db_fresh)))) by (left; reflexivity).
  split; [exact Hin |].
  destruct (register_duplicate_username generate_password_hash (Model_User := User_json)
              duplicate_alice (start db_fresh) alice Hin eq_refl)
    as (Hstatus & _ & Husers & _).
  split; [exact Hstatus | exact Husers].
Defined.



End Run.

(* ------------------------------------------------------------------ *)
(** ** Further properties at the sample data *)

Module RunMore.

Import Sample.

Lemma calculate_base_price_range_witness :
  (1 <= fst (calculate_base_price random_at (start db_fresh)) <= 6)%Q.
Proof.
  apply (calculate_base_price_range random_at (start db_fresh)).
  split; discriminate.
Defined.

Lemma calculate_price_change_step_witness :
  ((97 # 100) * (5 # 2) - (1 # 100)
   <= fst (calculate_price_change random_at (5 # 2) default_volatility (start db_fresh))
   <= (103 # 100) * (5 # 2) + (1 # 100))%Q.
Proof.
  apply (calculate_price_change_step random_at (5 # 2) (start db_fresh)).
  - split; discriminate.
  - split; discriminate.
Defined.

Lemma calculate_price_change_direction_witness :
  ((5 # 2) <= fst (calculate_price_change random_at (5 # 2) default_volatility
                     (start db_fresh)))%Q.
Proof.
  apply (calculate_price_change_direction random_at (5 # 2) (start db_fresh)).
  - exists 250. reflexivity.
  - discriminate.
  - split; discriminate.
Defined.

Lemma calculate_price_change_at_floor_witness :
  (fst (calculate_price_change random_at (- (3 # 1)) default_volatility (start db_fresh))
   == 2 # 10)%Q.
Proof.
  apply (calculate_price_change_at_floor random_at (- (3 # 1)) (start db_fresh)).
  - split; discriminate.
  - left. discriminate.
Defined.


Lemma get_price_history_windows_nest_witness :
  (List.length (fst (get_price_history random_at randbits_at now_at
                       (Model_SeedPrice := SeedPrice_json) 1 "1d"%string (start db_traded)))
   <= List.length (fst (get_price_history random_at randbits_at now_at
                          (Model_SeedPrice := SeedPrice_json) 1 "1y"%string
                          (start db_traded))))%nat.
Proof.
  apply (get_price_history_windows_nest random_at randbits_at now_at
           (Model_SeedPrice := SeedPrice_json) 1 "1d"%string "1y"%string
           (start db_traded) tomato).
  - reflexivity.
  - vm_compute. discriminate.
  - exists (obs 1 1 (5 # 2) 100 1699999999000000).
    split; [left; reflexivity |]. split; [reflexivity |]. vm_compute. discriminate.
Defined.

Lemma sample_draws_in_unit_interval (k : nat) : (0 <= random_at k <= 1)%Q.
Proof.
  do 6 (destruct k as [| k]; [split; discriminate |]).
  destruct k; split; discriminate.
Defined.

Lemma run_ticks_price_floor_witness :
  Forall (fun p => (2 # 10 <= sp_price p)%Q /\ Py.places 2 (sp_price p))
         (seed_prices (db (snd (run_ticks random_at randbits_at now_at 2
                                  (start db_listed))))).
Proof.
  apply (run_ticks_price_floor random_at randbits_at now_at 2 (start db_listed)).
  - exact sample_draws_in_unit_interval.
  - constructor; [| constructor]. split; [discriminate | exists 250; reflexivity].
Defined.


Lemma get_seed_latest_price_response_witness :
  status (fst (get_seed_latest_price (Model_SeedPrice := SeedPrice_json) 2
                 (start db_listed))) = 404.
Proof.
  apply (get_seed_latest_price_response (Model_SeedPrice := SeedPrice_json) 2
           (start db_listed)).
  right. intros p [<- | []]. discriminate.
Defined.


Lemma create_seed_effect_witness :
  exists (seed : Seed) (row : SeedPrice),
    seeds (db (snd (create_seed now_at (Model_Seed := Seed_json) 3
                      (basil (Some (4 # 1000))) (start db_listed))))
    = seeds db_listed ++ [seed]
    /\ seed_price seed = Some (4 # 1000)
    /\ seed_prices (db (snd (create_seed now_at (Model_Seed := Seed_json) 3
                               (basil (Some (4 # 1000))) (start db_listed))))
       = seed_prices db_listed ++ [row]
    /\ in_cents (4 # 1000) (sp_price row).
Proof.
  destruct (create_seed_effect now_at (Model_Seed := Seed_json) 3
              (basil (Some (4 # 1000))) (start db_listed)) as (_ & Hsome).
  destruct (Hsome "Basil"%string eq_refl)
    as (seed & Hseeds & _ & _ & _ & Hprice & _ & _ & Hfit & _).
  destruct Hfit as (_ & row & Hlog & _ & Hcents & _).
  - discriminate.
  - reflexivity.
  - exists seed, row. split; [exact Hseeds |]. split; [exact Hprice |].
    split; [exact Hlog | exact Hcents].
Defined.

Lemma create_seed_then_read_witness :
  exists row : SeedPrice,
    fst (get_seed_latest_price (Model_SeedPrice := SeedPrice_json) 3
           (snd (create_seed now_at (Model_Seed := Seed_json) 3
                   (basil (Some (13 # 4))) (start db_listed))))
    = jsonify (to_dict (Model := SeedPrice_json) row) 200
    /\ in_cents (13 # 4) (sp_price row).
Proof.
  destruct (create_seed_then_read now_at (Model_Seed := Seed_json)
              (Model_SeedPrice := SeedPrice_json) 3 (basil (Some (13 # 4)))
              (start db_listed) "Basil"%string) as (_ & _ & Hread & _).
  - reflexivity.
  - intros s [<- | [<- | []]]; discriminate.
  - intros p [<- | []]. discriminate.
  - apply Hread; [discriminate | reflexivity].
Defined.

Lemma update_seed_price_in_step_witness :
  exists (updated : Seed) (latest : SeedPrice),
    Query.get_seed (db (snd (update_seed_request now_at (Model_Seed := Seed_json) 1
                               (JsonObject (reprice_json (PriceNumber (2555 # 1000))))
                               (start db_listed)))) 1 = Some updated
    /\ Query.latest_price
         (db (snd (update_seed_request now_at (Model_Seed := Seed_json) 1
                     (JsonObject (reprice_json (PriceNumber (2555 # 1000))))
                     (start db_listed)))) 1 = Some latest
    /\ seed_price updated = Some (2555 # 1000)
    /\ in_cents (2555 # 1000) (sp_price latest).
Proof.
  destruct (update_seed_price_in_step now_at (Model_Seed := Seed_json) 1
              (reprice_json (PriceNumber (2555 # 1000))) (start db_listed) tomato
              (2555 # 1000))
    as (updated & latest & Hget & Hlatest & Hprice & Hcents & _).
  - reflexivity.
  - reflexivity.
  - intros C. vm_compute in C. discriminate C.
  - reflexivity.
  - intros q [<- | []] _. vm_compute. reflexivity.
  - exists updated, latest. split; [exact Hget |]. split; [exact Hlatest |].
    split; [exact Hprice | exact Hcents].
Defined.


Lemma get_seed_price_history_response_witness :
  fst (get_seed_price_history lib 9 (start db_listed))
  = jsonify (error_envelope "Seed not found") 404.
Proof.
  apply (get_seed_price_history_response lib 9 (start db_listed)). reflexivity.
Defined.


Lemma register_missing_field_witness :
  register_request generate_password_hash (Model_User := User_json)
    (JsonObject {| data_username := Some "carol"%string; data_email := Some ""%string;
                   data_password := Some "pw"%string; data_first_name := None;
                   data_last_name := None |})
    (start db_listed)
  = (jsonify (error_envelope "Username, email, and password are required") 400,
     start db_listed).
Proof.
  apply (register_missing_field generate_password_hash (Model_User := User_json)
           (JsonObject {| data_username := Some "carol"%string;
                          data_email := Some ""%string;
                          data_password := Some "pw"%string; data_first_name := None;
                          data_last_name := None |})).
  right. left. right. reflexivity.
Defined.

Lemma register_duplicate_email_witness :
  register generate_password_hash (Model_User := User_json)
    (Some {| data_username := Some "carol"%string;
             data_email := Some "alice@example.org"%string;
             data_password := Some "pw"%string; data_first_name := None;
             data_last_name := None |})
    (start db_listed)
  = (jsonify (error_envelope "Email already exists") 400, start db_listed).
Proof.
  apply (register_duplicate_email generate_password_hash (Model_User := User_json)
           _ (start db_listed) "carol"%string "pw"%string alice).
  - reflexivity.
  - discriminate.
  - reflexivity.
  - discriminate.
  - reflexivity.
  - discriminate.
  - left. reflexivity.
  - intros u [<- | []]. discriminate.
Defined.

Lemma register_creates_user_witness :
  status (fst (register generate_password_hash (Model_User := User_json)
                 (Some register_bob) (start db_listed))) = 201.
Proof.
  apply (register_creates_user generate_password_hash (Model_User := User_json)
           register_bob (start db_listed) "bob"%string "bob@example.org"%string
           "hunter2"%string).
  - reflexivity.
  - discriminate.
  - reflexivity.
  - discriminate.
  - reflexivity.
  - discriminate.
  - intros u [<- | []]. discriminate.
  - intros u [<- | []]. discriminate.
Defined.

Lemma register_twice_witness :
  fst (register generate_password_hash (Model_User := User_json) (Some register_bob)
         (snd (register generate_password_hash (Model_User := User_json)
                 (Some register_bob) (start db_listed))))
  = jsonify (error_envelope "Username already exists") 400.
Proof.
  apply (register_twice generate_password_hash (Model_User := User_json)
           register_bob (start db_listed) "bob"%string "bob@example.org"%string
           "hunter2"%string).
  - reflexivity.
  - discriminate.
  - reflexivity.
  - discriminate.
  - reflexivity.
  - discriminate.
  - intros u [<- | []]. discriminate.
  - intros u [<- | []]. discriminate.
Defined.

Lemma login_wrong_password_witness :
  login now_at lib (Model_User := User_json) (Some (login_alice "guess")) (start db_listed)
  = (jsonify (error_envelope "Invalid username or password") 401, start db_listed).
Proof.
  apply (login_wrong_password now_at lib (Model_User := User_json)
           (login_alice "guess") (start db_listed) "alice"%string "guess"%string alice).
  - reflexivity.
  - discriminate.
  - reflexivity.
  - discriminate.
  - reflexivity.
  - reflexivity.
Defined.

Lemma login_success_witness :
  Query.user_by_username
    (db (snd (login now_at lib (Model_User := User_json) (Some (login_alice "secret"))
                (start db_listed)))) "alice"%string
  = Some (set_last_login alice (now_at 0)).
Proof.
  apply (login_success now_at lib (Model_User := User_json)
           (login_alice "secret") (start db_listed) "alice"%string "secret"%string alice).
  - reflexivity.
  - discriminate.
  - reflexivity.
  - discriminate.
  - reflexivity.
  - reflexivity.
Defined.

Lemma register_then_login_witness :
  status (fst (login now_at lib (Model_User := User_json) (Some register_bob)
                 (snd (register generate_password_hash (Model_User := User_json)
                         (Some register_bob) (start db_listed))))) = 200.
Proof.
  apply (register_then_login now_at generate_password_hash lib (Model_User := User_json)
           register_bob (start db_listed) "bob"%string "bob@example.org"%string
           "hunter2"%string).
  - reflexivity.
  - discriminate.
  - reflexivity.
  - discriminate.
  - reflexivity.
  - discriminate.
  - intros u [<- | []]. discriminate.
  - intros u [<- | []]. discriminate.
  - reflexivity.
Defined.

Lemma session_routes_unknown_identity_witness :
  get_user_info (Model_User := User_json) (Some 7) (start db_listed)
  = (jsonify (error_envelope "User not found") 404, start db_listed).
Proof.
  apply (session_routes_unknown_identity lib (Model_User := User_json)
           (Some 7) (start db_listed)).
  intros u [<- | []]. discriminate.
Defined.

Lemma session_routes_after_register_witness :
  exists new_user : User,
    get_user_info (Model_User := User_json) (Some 2)
      (snd (register generate_password_hash (Model_User := User_json)
              (Some register_bob) (start db_listed)))
    = (jsonify (to_dict (Model := User_json) new_user) 200,
       snd (register generate_password_hash (Model_User := User_json)
              (Some register_bob) (start db_listed))).
Proof.
  destruct (session_routes_after_register generate_password_hash lib
              (Model_User := User_json) register_bob (start db_listed)
              "bob"%string "bob@example.org"%string "hunter2"%string)
    as (new_user & _ & Hme & _).
  - reflexivity.
  - discriminate.
  - reflexivity.
  - discriminate.
  - reflexivity.
  - discriminate.
  - intros u [<- | []]. discriminate.
  - intros u [<- | []]. discriminate.
  - intros u [<- | []]. discriminate.
  - exists new_user. exact Hme.
Defined.


End RunMore.
